(** * ObjectStoreProviderUtils: key derivation and orderable key encoding

    A shallow embedding of [src/ObjectStoreProviderUtils.ts] and the
    properties of its key resolver, key-list normaliser and orderable
    string encoder.

    Conventions of the embedding.
    - A JavaScript [number] is a binary64 value, a [spec_float] with
      53 bits of precision: [/], [+], [-], the comparisons and
      [Math.floor] are the IEEE 754 operations, and [String(n)] is
      Number::toString, the shortest decimal that reads back as [n].
    - ECMAScript leaves [Math.log] and [Math.pow] to the engine
      (implementation-approximated).  The model takes the correctly
      rounded results: the natural logarithm computed to 200
      fractional bits and then rounded, and the power of ten nearest
      to the exact one.
    - A JavaScript string is a [string], a sequence of 8-bit code
      units; [<] on strings is [String.ltb], the comparison code unit
      by code unit.
    - A JavaScript value is a finite tree of [value]: the primitives,
      Dates, arrays and objects.
    - [throw] is the [Throw] case of the [result] type.
    - [get] of lodash and [JSON.stringify] are not part of the module:
      the functions that call them take them from a [Host], and the
      properties hold for every host. *)

From Stdlib Require Import ZArith List String Ascii Bool Lia Floats.SpecFloat.
Import ListNotations.
Set Warnings "-register-all".
Local Open Scope string_scope.
Local Open Scope Z_scope.

(* ================================================================== *)
(** * Numbers *)
(* ================================================================== *)

Definition prec : Z := 53.
Definition emax : Z := 1024.
Definition number : Type := spec_float.

(** The double nearest to [m * 2^e], and to the integer [z]. *)
Definition of_binary (m e : Z) : number := binary_normalize prec emax m e false.
Definition of_Z (z : Z) : number := of_binary z 0.

(** [a === b], [a < b], [isNaN(n)], [isFinite(n)], [-n], [a + b],
    [a - b], [a / b]. *)
Definition strict_eq (a b : number) : bool := SFeqb a b.
Definition lt (a b : number) : bool := SFltb a b.

Definition isNaN (n : number) : bool :=
  match n with S754_nan => true | _ => false end.

Definition isFinite (n : number) : bool :=
  match n with S754_zero _ | S754_finite _ _ _ => true | _ => false end.

Definition neg (n : number) : number := SFopp n.
Definition add (a b : number) : number := SFadd prec emax a b.
Definition sub (a b : number) : number := SFsub prec emax a b.
Definition div (a b : number) : number := SFdiv prec emax a b.

(** [Math.floor(x)]. *)
Definition Math_floor (x : number) : number :=
  match x with
  | S754_finite s m e =>
      if 0 <=? e then x
      else
        let d := 2 ^ (- e) in
        let q := Zpos m / d in
        if s then
          binary_normalize prec emax
            (- (if Zpos m mod d =? 0 then q else q + 1)) 0 true
        else binary_normalize prec emax q 0 false
  | _ => x
  end.

(** The integer part of a finite number. *)
Definition integer_value (x : number) : Z :=
  match x with
  | S754_finite s m e =>
      let v := if 0 <=? e then Zpos m * 2 ^ e else Zpos m / 2 ^ (- e) in
      if s then - v else v
  | _ => 0
  end.

(** [Math.pow(10, y)] for an integral [y], the only use the module
    makes of [Math.pow]: the double nearest to the power of ten. *)
Definition Math_pow10 (y : number) : number :=
  match y with
  | S754_nan => S754_nan
  | S754_infinity s => if s then S754_zero false else S754_infinity false
  | S754_zero _ => of_Z 1
  | S754_finite s _ _ =>
      let k := Z.abs (integer_value y) in
      if s then
        match 10 ^ k with
        | Zpos p =>
            SFdiv prec emax (S754_finite false 1 0) (S754_finite false p 0)
        | _ => S754_nan
        end
      else of_Z (10 ^ k)
  end.

(** ** [Math.log]

    [ln (m * 2^e)] is [(e + d) * ln 2 + 2 * atanh z] with [d] the
    binary order of [m] and [z = (m - 2^d) / (m + 2^d)], which is
    below 1/3; the series of [atanh] is summed in fixed point with
    [fraction_bits] fractional bits. *)
Definition fraction_bits : Z := 200.

Fixpoint atanh_series (terms : nat) (power z2 i acc : Z) : Z :=
  match terms with
  | O => acc
  | S t =>
      atanh_series t (power * z2 / 2 ^ fraction_bits) z2 (i + 1)
        (acc + power / (2 * i + 1))
  end.

Definition atanh_fixed (z : Z) : Z :=
  atanh_series 70 z (z * z / 2 ^ fraction_bits) 0 0.

Definition ln2_fixed : Z := 2 * atanh_fixed (2 ^ fraction_bits / 3).

Definition ln_fixed (m e : Z) : Z :=
  let d := Z.log2 m in
  let z := (m - 2 ^ d) * 2 ^ fraction_bits / (m + 2 ^ d) in
  (e + d) * ln2_fixed + 2 * atanh_fixed z.

Definition Math_log (x : number) : number :=
  match x with
  | S754_nan => S754_nan
  | S754_zero _ => S754_infinity true
  | S754_infinity s => if s then S754_nan else x
  | S754_finite true _ _ => S754_nan
  | S754_finite false m e =>
      binary_normalize prec emax (ln_fixed (Zpos m) e) (- fraction_bits) false
  end.

(** [Math.LN10], 2.302585092994046. *)
Definition Math_LN10 : number := S754_finite false 5184960683398422 (-51).

(* ================================================================== *)
(** * The textual form of a number *)
(* ================================================================== *)

(** ** Decimal digits *)

(** Digits of a positive integer, most significant first.  The fuel is
    the binary size of the argument, which is never less than the
    number of its decimal digits. *)
Fixpoint digits_fuel (fuel : nat) (z : Z) (acc : list Z) : list Z :=
  match fuel with
  | O => acc
  | S f =>
      if z <? 10 then z :: acc
      else digits_fuel f (z / 10) (z mod 10 :: acc)
  end.

Definition digits (z : Z) : list Z :=
  digits_fuel (S (Z.to_nat (Z.log2 z))) z [].

Fixpoint drop_zeros (ds : list Z) : list Z :=
  match ds with
  | 0 :: r => drop_zeros r
  | _ => ds
  end.

Definition strip_trailing_zeros (ds : list Z) : list Z :=
  rev (drop_zeros (rev ds)).

Definition digit_char (d : Z) : ascii := ascii_of_N (Z.to_N (48 + d)).

Fixpoint digits_string (ds : list Z) : string :=
  match ds with
  | [] => EmptyString
  | d :: r => String (digit_char d) (digits_string r)
  end.

Fixpoint zeros (n : nat) : string :=
  match n with
  | O => EmptyString
  | S k => String "0" (zeros k)
  end.

(** Decimal text of an integer, as it appears after the [e] of the
    exponent notation. *)
Definition int_string (z : Z) : string :=
  if z =? 0 then "0" else digits_string (digits (Z.abs z)).

(** ** The layouts of Number::toString

    For the decimal [m * 10^e], with [s] its digits without trailing
    zeros, [k] their count and [n] the position of the decimal point
    (value = 0.s * 10^n), the four layouts of the standard. *)
Definition decimal_layout (m e : Z) : string :=
  let all := digits m in
  let s := strip_trailing_zeros all in
  let k := Z.of_nat (List.length s) in
  let n := Z.of_nat (List.length all) + e in
  if (k <=? n) && (n <=? 21) then
    digits_string s ++ zeros (Z.to_nat (n - k))
  else if (0 <? n) && (n <=? 21) then
    digits_string (firstn (Z.to_nat n) s) ++ "." ++
    digits_string (skipn (Z.to_nat n) s)
  else if (-6 <? n) && (n <=? 0) then
    "0." ++ zeros (Z.to_nat (- n)) ++ digits_string s
  else
    let x := n - 1 in
    let sign := if x <? 0 then "-" else "+" in
    match s with
    | [d] => digits_string [d] ++ "e" ++ sign ++ int_string x
    | d :: r =>
        digits_string [d] ++ "." ++ digits_string r ++
        "e" ++ sign ++ int_string x
    | [] => EmptyString
    end.

(** ** The shortest decimal of a double *)

(** [a * 2^ea * 10^da] against [b * 2^eb * 10^db], both cleared of
    their negative powers. *)
Definition scaled (a ea da eb db : Z) : Z :=
  a * 2 ^ Z.max (ea - eb) 0 * 10 ^ Z.max (da - db) 0.

Definition compare_scaled (a ea da b eb db : Z) : comparison :=
  scaled a ea da eb db ?= scaled b eb db ea da.

(** The [n] with [10^(n-1) <= m * 2^e < 10^n], searched from an
    estimate. *)
Fixpoint adjust_exponent (fuel : nat) (m e n : Z) : Z :=
  match fuel with
  | O => n
  | S f =>
      match compare_scaled m e 0 1 0 (n - 1) with
      | Lt => adjust_exponent f m e (n - 1)
      | _ =>
          match compare_scaled m e 0 1 0 n with
          | Lt => n
          | _ => adjust_exponent f m e (n + 1)
          end
      end
  end.

Definition decimal_exponent (m e : Z) : Z :=
  adjust_exponent 8 m e ((Z.log2 m + e) * 1233 / 4096 + 1).

(** [s * 10^q] reads back as the double [m * 2^e]: it lies between the
    midpoints to the two neighbours, which count when [m] is even. *)
Definition rounds_to (m e s q : Z) : bool :=
  let lo := if (m =? 2 ^ 52) && (-1074 <? e) then 4 * m - 1 else 4 * m - 2 in
  let hi := 4 * m + 2 in
  let above := compare_scaled lo (e - 2) 0 s 0 q in
  let below := compare_scaled s 0 q hi (e - 2) 0 in
  match above, below with
  | Lt, Lt => true
  | Lt, Eq | Eq, Lt | Eq, Eq => Z.even m
  | _, _ => false
  end.

(** The least number [k] of digits for which a decimal of [k] digits
    reads back as the double, and of the two candidates the nearer
    one (the even one on a tie). *)
Fixpoint shortest_fuel (fuel : nat) (m e n k : Z) : Z * Z :=
  let q := n - k in
  let num := scaled m e 0 0 q in
  let den := scaled 1 0 q e 0 in
  let s1 := num / den in
  let s2 := s1 + 1 in
  match fuel with
  | O => (s1, q)
  | S f =>
      match rounds_to m e s1 q, rounds_to m e s2 q with
      | true, true =>
          match num - s1 * den ?= s2 * den - num with
          | Lt => (s1, q)
          | Gt => (s2, q)
          | Eq => if Z.even s1 then (s1, q) else (s2, q)
          end
      | true, false => (s1, q)
      | false, true => (s2, q)
      | false, false => shortest_fuel f m e n (k + 1)
      end
  end.

Definition shortest_decimal (m e : Z) : Z * Z :=
  shortest_fuel 17 m e (decimal_exponent m e) 1.

(** [String(n)]. *)
Definition ToString (n : number) : string :=
  match n with
  | S754_nan => "NaN"
  | S754_zero _ => "0"
  | S754_infinity s => if s then "-Infinity" else "Infinity"
  | S754_finite s m e =>
      let '(d, q) := shortest_decimal (Zpos m) e in
      (if s then "-" else "") ++ decimal_layout d q
  end.

(* ================================================================== *)
(** * The number encoder *)
(* ================================================================== *)

Definition zeroes : string := "0000000000000000".

Definition formatFixed (n : number) (digits : Z) : string :=
  let result := ToString n in
  let prefix := digits - Z.of_nat (String.length result) in
  if (0 <? prefix) && (prefix <? Z.of_nat (String.length zeroes)) then
    substring 0 (Z.to_nat prefix) zeroes ++ result
  else result.

Definition serializeNumberToOrderableString (n : number) : string :=
  if strict_eq n (of_Z 0) || isNaN n || negb (isFinite n) then ToString n
  else
    let isPositive := negb (lt n (of_Z 0)) in
    let n := if lt n (of_Z 0) then neg n else n in
    let exponent := Math_floor (div (Math_log n) Math_LN10) in
    let n := div n (Math_pow10 exponent) in
    if isPositive then
      formatFixed (add (of_Z 1024) exponent) 4 ++ ToString n
    else
      "-" ++ formatFixed (sub (of_Z 1024) exponent) 4 ++
      ToString (sub (of_Z 10) n).

(* ================================================================== *)
(** * Values, errors and the host environment *)
(* ================================================================== *)

(** The runtime values a record or a key is made of.  A Date carries
    its time value.  An object carries its own enumerable properties,
    in enumeration order, and what
    [Object.getPrototypeOf(val).constructor] converts to as text:
    [None] is an object without prototype ([Object.create(null)]),
    [Some c] one whose prototype has a constructor printed as [c]. *)
Inductive value : Type :=
| VUndefined
| VNull
| VBoolean (b : bool)
| VNumber (n : number)
| VString (s : string)
| VDate (time : number)
| VArray (elems : list value)
| VObject (proto : option string) (props : list (string * value)).

Inductive error : Type :=
| Error (message : string)
| TypeError.

Inductive result (A : Type) : Type :=
| Ok (a : A)
| Throw (e : error).
Arguments Ok {A} a.
Arguments Throw {A} e.

Definition bind {A B : Type} (r : result A) (f : A -> result B) : result B :=
  match r with
  | Ok a => f a
  | Throw e => Throw e
  end.

Notation "x <- r ;; k" := (bind r (fun x => k))
  (at level 61, r at next level, right associativity).

(** [map(array, f)] of lodash for a callback that may throw: elements
    are visited in order and the first exception leaves the loop. *)
Fixpoint map_result {A B : Type} (f : A -> result B) (l : list A)
  : result (list B) :=
  match l with
  | [] => Ok []
  | a :: r => b <- f a ;; bs <- map_result f r ;; Ok (b :: bs)
  end.

(** [KeyPathType = string | string[]]. *)
Inductive KeyPathType : Type :=
| KeyPath (locator : string)
| KeyPaths (locators : list string).

(** A key path seen as a value, the way [JSON.stringify] receives it. *)
Definition keyPath_value (keyPath : KeyPathType) : value :=
  match keyPath with
  | KeyPath s => VString s
  | KeyPaths l => VArray (map VString l)
  end.

(** The collaborators the module calls and does not define: [get] of
    lodash and [JSON.stringify] ([None] is its [undefined] result; on
    the finite trees of [value] it does not throw). *)
Class Host : Type := {
  get : value -> string -> value;
  JSON_stringify : value -> option string
}.

(** Text a string concatenation appends for a [string | undefined]. *)
Definition concat_text (o : option string) : string :=
  match o with
  | Some s => s
  | None => "undefined"
  end.

(** ** lodash predicates and [typeof] *)

Definition isArray (v : value) : bool :=
  match v with VArray _ => true | _ => false end.

Definition isKeyPathArray (keyPath : KeyPathType) : bool :=
  match keyPath with KeyPaths _ => true | KeyPath _ => false end.

Definition isNull (v : value) : bool :=
  match v with VNull => true | _ => false end.

Definition isUndefined (v : value) : bool :=
  match v with VUndefined => true | _ => false end.

Definition isObject (v : value) : bool :=
  match v with
  | VDate _ | VArray _ | VObject _ _ => true
  | _ => false
  end.

Definition typeof (v : value) : string :=
  match v with
  | VUndefined => "undefined"
  | VBoolean _ => "boolean"
  | VNumber _ => "number"
  | VString _ => "string"
  | VNull | VDate _ | VArray _ | VObject _ _ => "object"
  end.

(** [Object.getPrototypeOf(val).constructor] as the text the message
    receives; reading [constructor] from a missing prototype is a
    [TypeError]. *)
Definition prototype_constructor (v : value) : result string :=
  match v with
  | VDate _ => Ok "function Date() { [native code] }"
  | VArray _ => Ok "function Array() { [native code] }"
  | VObject (Some c) _ => Ok c
  | VObject None _ => Throw TypeError
  | VBoolean _ => Ok "function Boolean() { [native code] }"
  | VNumber _ => Ok "function Number() { [native code] }"
  | VString _ => Ok "function String() { [native code] }"
  | VUndefined | VNull => Throw TypeError
  end.

(* ================================================================== *)
(** * The module *)
(* ================================================================== *)

Definition arrayify (obj : value) : list value :=
  match obj with
  | VArray l => l
  | _ => [obj]
  end.

Definition arrayifyKeyPath (keyPath : KeyPathType) : list string :=
  match keyPath with
  | KeyPaths l => l
  | KeyPath s => [s]
  end.

Definition keypathJoinerString : string := "%&".

Definition isCompoundKeyPath (keyPath : KeyPathType) : bool :=
  match keyPath with
  | KeyPaths l => 1 <? Z.of_nat (List.length l)
  | KeyPath _ => false
  end.

Definition serializeValueToOrderableString (val : value) : result string :=
  match val with
  | VNumber n =>                          (* typeof val === "number" *)
      Ok ("A" ++ serializeNumberToOrderableString n)
  | VDate time =>                         (* isDate(val); val.getTime() *)
      Ok ("B" ++ serializeNumberToOrderableString time)
  | VString s =>                          (* typeof val === "string" *)
      Ok ("C" ++ s)
  | _ =>
      type <- (if isObject val then prototype_constructor val
               else Ok (typeof val)) ;;
      Throw (Error ("Type '" ++ type ++
        "' unsupported at this time.  Only numbers, Dates, and strings are currently supported."))
  end.

Section WithHost.
Context {host : Host}.

Definition getValueForSingleKeypath (obj : value) (singleKeyPath : string)
  : value :=
  get obj singleKeyPath.

Definition getKeyForKeypath (obj : value) (keyPathRaw : KeyPathType) : value :=
  let keyPathArray := arrayifyKeyPath keyPathRaw in
  let values := map (fun kp => getValueForSingleKeypath obj kp) keyPathArray in
  if existsb (fun val => isNull val || isUndefined val) values then
    VUndefined
  else if negb (isKeyPathArray keyPathRaw) then nth 0 values VUndefined
  else VArray values.

Definition formListOfKeys (keyOrKeys : value) (keyPath : KeyPathType)
  : result (list value) :=
  if isCompoundKeyPath keyPath then
    match keyOrKeys with
    | VArray keys =>
        if negb (isArray (nth 0 keys VUndefined)) then Ok [keyOrKeys]
        else Ok keys
    | _ =>
        Throw (Error ("formListOfKeys called with a compound keypath (" ++
          concat_text (JSON_stringify (keyPath_value keyPath)) ++
          ") but a non-compound keyOrKeys (" ++
          concat_text (JSON_stringify keyOrKeys) ++ ")"))
    end
  else Ok (arrayify keyOrKeys).

Definition serializeKeyToString (key : value) (keyPath : KeyPathType)
  : result string :=
  if isCompoundKeyPath keyPath then
    match key with
    | VArray ks =>
        strs <- map_result (fun k => serializeValueToOrderableString k) ks ;;
        Ok (String.concat keypathJoinerString strs)
    | _ =>
        Throw (Error ("serializeKeyToString called with a compound keypath (" ++
          concat_text (JSON_stringify (keyPath_value keyPath)) ++
          ") but a non-compound key (" ++
          concat_text (JSON_stringify key) ++ ")"))
    end
  else
    match key with
    | VArray _ =>
        Throw (Error ("serializeKeyToString called with a non-compound keypath (" ++
          concat_text (JSON_stringify (keyPath_value keyPath)) ++
          ") but a compound key (" ++
          concat_text (JSON_stringify key) ++ ")"))
    | _ => serializeValueToOrderableString key
    end.

(** [None] is the [undefined] result. *)
Definition getSerializedKeyForKeypath (obj : value) (keyPathRaw : KeyPathType)
  : result (option string) :=
  let values := getKeyForKeypath obj keyPathRaw in
  if isUndefined values then Ok None
  else s <- serializeKeyToString values keyPathRaw ;; Ok (Some s).

Definition formListOfSerializedKeys (keyOrKeys : value) (keyPath : KeyPathType)
  : result (list string) :=
  keys <- formListOfKeys keyOrKeys keyPath ;;
  map_result (fun key => serializeKeyToString key keyPath) keys.

End WithHost.

(* ================================================================== *)
(** * A reference host *)
(* ================================================================== *)

(** An executable host on which the examples run: [get] restricted to
    own properties and dotted paths (the bracket syntax of lodash
    paths is not interpreted), and [JSON.stringify] on [value]. *)

Definition quote_char : ascii := "034"%char.

Definition hex_digit (n : N) : ascii :=
  if (n <? 10)%N then ascii_of_N (48 + n) else ascii_of_N (87 + n).

Definition escape_char (c : ascii) : string :=
  let n := N_of_ascii c in
  if (n =? 8)%N then "\b"
  else if (n =? 9)%N then "\t"
  else if (n =? 10)%N then "\n"
  else if (n =? 12)%N then "\f"
  else if (n =? 13)%N then "\r"
  else if (n =? 34)%N then String "\" (String quote_char EmptyString)
  else if (n =? 92)%N then "\\"
  else if (n <? 32)%N then
    "\u00" ++ String (hex_digit (n / 16)) (String (hex_digit (n mod 16)) EmptyString)
  else String c EmptyString.

Fixpoint escape_string (s : string) : string :=
  match s with
  | EmptyString => EmptyString
  | String c r => escape_char c ++ escape_string r
  end.

Definition quote (s : string) : string :=
  String quote_char (escape_string s ++ String quote_char EmptyString).

Definition pad_int (width : nat) (z : Z) : string :=
  let s := int_string z in
  zeros (width - String.length s) ++ s.

(** [Date.prototype.toISOString]: the civil date of a day count from
    the epoch, then the fixed layout. *)
Definition toISOString (t : number) : string :=
  let ms := integer_value t in
  let days := ms / 86400000 in
  let rest := ms mod 86400000 in
  let z := days + 719468 in
  let era := z / 146097 in
  let doe := z - era * 146097 in
  let yoe := (doe - doe / 1460 + doe / 36524 - doe / 146096) / 365 in
  let doy := doe - (365 * yoe + yoe / 4 - yoe / 100) in
  let mp := (5 * doy + 2) / 153 in
  let d := doy - (153 * mp + 2) / 5 + 1 in
  let m := if mp <? 10 then mp + 3 else mp - 9 in
  let y := yoe + era * 400 + (if m <=? 2 then 1 else 0) in
  let year :=
    if (0 <=? y) && (y <=? 9999) then pad_int 4 y
    else (if y <? 0 then "-" else "+") ++ pad_int 6 (Z.abs y) in
  year ++ "-" ++ pad_int 2 m ++ "-" ++ pad_int 2 d ++ "T" ++
  pad_int 2 (rest / 3600000) ++ ":" ++
  pad_int 2 (rest / 60000 mod 60) ++ ":" ++
  pad_int 2 (rest / 1000 mod 60) ++ "." ++
  pad_int 3 (rest mod 1000) ++ "Z".

Fixpoint reference_JSON_stringify (v : value) : option string :=
  match v with
  | VUndefined => None
  | VNull => Some "null"
  | VBoolean b => Some (if b then "true" else "false")
  | VNumber n => Some (if isFinite n then ToString n else "null")
  | VString s => Some (quote s)
  | VDate t => Some (if isFinite t then quote (toISOString t) else "null")
  | VArray l =>
      Some ("[" ++
        String.concat ","
          (map (fun x => match reference_JSON_stringify x with
                         | Some s => s
                         | None => "null"
                         end) l) ++ "]")
  | VObject _ props =>
      Some ("{" ++
        String.concat ","
          (flat_map (fun kv => match reference_JSON_stringify (snd kv) with
                               | Some s => [quote (fst kv) ++ ":" ++ s]
                               | None => []
                               end) props) ++ "}")
  end.

Fixpoint lookup (k : string) (props : list (string * value)) : option value :=
  match props with
  | [] => None
  | (k', v) :: r => if String.eqb k k' then Some v else lookup k r
  end.

(** Position of [k] among the decimal texts of [i], [i+1], ... *)
Fixpoint index_of (k : string) (i : Z) (count : nat) : option nat :=
  match count with
  | O => None
  | S c =>
      if String.eqb k (int_string i) then Some (Z.to_nat i)
      else index_of k (i + 1) c
  end.

(** [object[key]] on own properties. *)
Definition property (v : value) (k : string) : value :=
  match v with
  | VObject _ props =>
      match lookup k props with Some x => x | None => VUndefined end
  | VArray l =>
      if String.eqb k "length" then VNumber (of_Z (Z.of_nat (List.length l)))
      else match index_of k 0 (List.length l) with
           | Some i => nth i l VUndefined
           | None => VUndefined
           end
  | VString s =>
      if String.eqb k "length" then VNumber (of_Z (Z.of_nat (String.length s)))
      else match index_of k 0 (String.length s) with
           | Some i => VString (substring i 1 s)
           | None => VUndefined
           end
  | _ => VUndefined
  end.

Fixpoint split_dots (s : string) (current : string) : list string :=
  match s with
  | EmptyString => [current]
  | String c r =>
      if Ascii.eqb c "." then current :: split_dots r EmptyString
      else split_dots r (current ++ String c EmptyString)
  end.

Fixpoint baseGet (object : value) (path : list string) : value :=
  match path with
  | [] => object
  | k :: r =>
      if isNull object || isUndefined object then VUndefined
      else baseGet (property object k) r
  end.

Definition has_own (v : value) (k : string) : bool :=
  match v with
  | VObject _ props => match lookup k props with Some _ => true | None => false end
  | _ => false
  end.

Definition reference_get (object : value) (path : string) : value :=
  if isNull object || isUndefined object then VUndefined
  else if has_own object path then property object path
  else baseGet object (split_dots path EmptyString).

Definition reference_host : Host :=
  {| get := reference_get; JSON_stringify := reference_JSON_stringify |}.

(* ================================================================== *)
(** * The error kinds of the specification *)
(* ================================================================== *)

(** The module throws plain [Error] objects; the specification's two
    error kinds are told apart by their message. *)

Definition unsupported_message (type : string) : string :=
  "Type '" ++ type ++
  "' unsupported at this time.  Only numbers, Dates, and strings are currently supported.".

Definition UnsupportedKeyTypeError (e : error) : Prop :=
  exists type, e = Error (unsupported_message type).

(** [needle] occurs in [text]. *)
Definition occurs_in (needle text : string) : Prop :=
  exists before after, text = before ++ needle ++ after.

Definition compound_keypath_message (keyPath key : string) : string :=
  "serializeKeyToString called with a compound keypath (" ++ keyPath ++
  ") but a non-compound key (" ++ key ++ ")".

Definition simple_keypath_message (keyPath key : string) : string :=
  "serializeKeyToString called with a non-compound keypath (" ++ keyPath ++
  ") but a compound key (" ++ key ++ ")".

(** The number encoding in the specification's words.  The exponent
    is [floor(log10 |n|)], the mantissa [|n| / 10^exponent], and the
    exponent field the decimal text of the biased exponent,
    zero-padded on the left to four characters. *)
Definition floor_log10 (n : number) : Z :=
  match n with
  | S754_finite _ m e => decimal_exponent (Zpos m) e - 1
  | _ => 0
  end.

Definition zero_padded (width : nat) (s : string) : string :=
  zeros (width - String.length s) ++ s.

Definition exponent_field (biased : number) : string :=
  zero_padded 4 (ToString biased).

Definition formula_serializeNumber (n : number) : string :=
  if strict_eq n (of_Z 0) || isNaN n || negb (isFinite n) then ToString n
  else
    let magnitude := SFabs n in
    let exponent := of_Z (floor_log10 magnitude) in
    let mantissa := div magnitude (Math_pow10 exponent) in
    if lt n (of_Z 0) then
      "-" ++ exponent_field (sub (of_Z 1024) exponent) ++
      ToString (sub (of_Z 10) mantissa)
    else exponent_field (add (of_Z 1024) exponent) ++ ToString mantissa.

(** [null] or [undefined]. *)
Definition nullish (v : value) : bool := isNull v || isUndefined v.

(** A key component the encoder supports. *)
Definition isKeyComponent (v : value) : bool :=
  match v with
  | VNumber _ | VDate _ | VString _ => true
  | _ => false
  end.

(** The runtime type the unsupported-type message reports for [v]. *)
Definition reported_type (v : value) : option string :=
  match v with
  | VUndefined => Some "undefined"
  | VNull => Some "object"
  | VBoolean _ => Some "boolean"
  | VArray _ => Some "function Array() { [native code] }"
  | VObject (Some c) _ => Some c
  | VObject None _ => None
  | VNumber _ | VDate _ | VString _ => None
  end.

(** The tag the scalar encoder puts in front of a key component. *)
Definition tag (v : value) : ascii :=
  match v with
  | VNumber _ => "A"%char
  | VDate _ => "B"%char
  | _ => "C"%char
  end.

(* ================================================================== *)
(** * The array helpers *)
(* ================================================================== *)

(** Max array length (uint): 2^32 - 1. *)
Definition MAX_COUNT : Z := 4294967295.

(** [array[j]]: [undefined] outside the array. *)
Definition index (array : list value) (j : Z) : value :=
  if j <? 0 then VUndefined else nth (Z.to_nat j) array VUndefined.

(** [array[j] = v]: an assignment past the end extends the array, the
    skipped positions reading as [undefined]. *)
Fixpoint set_nth (n : nat) (v : value) (l : list value) : list value :=
  match n, l with
  | O, [] => [v]
  | O, _ :: r => v :: r
  | S k, [] => VUndefined :: set_nth k v []
  | S k, x :: r => x :: set_nth k v r
  end.

Definition set_index (array : list value) (j : Z) (v : value) : list value :=
  set_nth (Z.to_nat j) v array.

(** [new Array(len)] takes [len] when it is an integer from 0 to
    2^32 - 1 (its [ToUint32] is [len] itself) and throws a RangeError
    otherwise. *)
Definition valid_array_length (len : number) : bool :=
  match len with
  | S754_zero _ => true
  | S754_finite false m e =>
      ((0 <=? e) || (Zpos m mod 2 ^ (- e) =? 0)) &&
      (integer_value len <=? 2 ^ 32 - 1)
  | _ => false
  end.

Inductive trim_result : Type :=
| Returns (ret : list value)
| ThrowsRangeError.

(** [for (let j = 0; j < trimLength; j++) ret[j] = array[j]].  The
    counter holds the integers 0, 1, 2, ... exactly; the loop is
    entered with [trimLength] at most the length of [array], which
    bounds the number of rounds. *)
Fixpoint trim_loop (rounds : nat) (array : list value) (trimLength : number)
    (j : Z) (ret : list value) : list value :=
  match rounds with
  | O => ret
  | S r =>
      if lt (of_Z j) trimLength then
        trim_loop r array trimLength (j + 1) (set_index ret j (index array j))
      else ret
  end.

(** [array.slice()] is the array itself, element by element. *)
Definition trimArray (array : list value) (trimLength : number) : trim_result :=
  if lt trimLength (of_Z 0) ||
     lt (of_Z (Z.of_nat (List.length array))) trimLength
  then Returns array
  else if valid_array_length trimLength then
    let ret := repeat VUndefined (Z.to_nat (integer_value trimLength)) in
    Returns (trim_loop (S (List.length array)) array trimLength 0 ret)
  else ThrowsRangeError.

(* ================================================================== *)
(** * Properties *)
(* ================================================================== *)

(** ** The number model on known values *)

Example Math_log_values :
  Math_log (of_Z 1) = S754_zero false /\
  ToString (Math_log (of_Z 2)) = "0.6931471805599453" /\
  Math_log (of_Z 10) = Math_LN10 /\
  ToString (Math_log (of_Z 999)) = "6.906754778648554" /\
  ToString (Math_log (of_Z 1000)) = "6.907755278982137" /\
  Math_log (of_Z 0) = S754_infinity true /\
  Math_log (of_Z (-1)) = S754_nan.
Proof. vm_compute. repeat split. Qed.

Example Math_pow10_values :
  Math_pow10 (of_Z 0) = of_Z 1 /\
  Math_pow10 (of_Z 2) = of_Z 100 /\
  Math_pow10 (of_Z 22) = of_Z (10 ^ 22) /\
  ToString (Math_pow10 (of_Z (-5))) = "0.00001" /\
  ToString (Math_pow10 (of_Z 308)) = "1e+308" /\
  Math_pow10 (of_Z (-324)) = S754_zero false.
Proof. vm_compute. repeat split. Qed.

Example ToString_values :
  ToString (of_Z 0) = "0" /\
  ToString (of_Z (-1024)) = "-1024" /\
  ToString (div (of_Z 1) (of_Z 10)) = "0.1" /\
  ToString (div (of_Z 1) (of_Z 3)) = "0.3333333333333333" /\
  ToString (div (of_Z 3) (Math_pow10 (of_Z (-1)))) = "30" /\
  ToString (div (div (of_Z 3) (of_Z 10)) (div (of_Z 1) (of_Z 10))) =
    "2.9999999999999996" /\
  ToString (of_Z (10 ^ 21)) = "1e+21" /\
  ToString (of_Z 123456789012345678901) = "123456789012345680000" /\
  ToString (of_binary 1 (-20)) = "9.5367431640625e-7" /\
  ToString (of_binary 1 (-1074)) = "5e-324" /\
  ToString (of_binary (2 ^ 53 - 1) 971) = "1.7976931348623157e+308" /\
  ToString (of_binary 1 1024) = "Infinity" /\
  ToString (Math_floor (of_binary (-5) (-1))) = "-3".
Proof. vm_compute. repeat split. Qed.

(** ** Strings *)

Lemma ltb_first_char (a b : ascii) (s t : string) :
  (N_of_ascii a < N_of_ascii b)%N ->
  (String a s <? String b t)%string = true.
Proof.
  intros Hab. unfold String.ltb. simpl.
  unfold Ascii.compare. rewrite (proj2 (N.compare_lt_iff _ _) Hab).
  reflexivity.
Qed.

Lemma append_assoc (a b c : string) : (a ++ b) ++ c = a ++ (b ++ c).
Proof.
  induction a as [|x a IH]; simpl; [reflexivity|]. now rewrite IH.
Qed.

Lemma ascii_compare_refl (c : ascii) : Ascii.compare c c = Eq.
Proof. unfold Ascii.compare. apply N.compare_refl. Qed.

Lemma ltb_same_head (c : ascii) (s t : string) :
  (String c s <? String c t)%string = (s <? t)%string.
Proof. unfold String.ltb. simpl. now rewrite ascii_compare_refl. Qed.

Lemma ltb_common_prefix (p s t : string) :
  (p ++ s <? p ++ t)%string = (s <? t)%string.
Proof.
  induction p as [|c p IH]; simpl; [reflexivity|].
  now rewrite ltb_same_head.
Qed.

Lemma ltb_prefix_char (s : string) (c : ascii) (t : string) :
  (s <? s ++ String c t)%string = true.
Proof.
  induction s as [|x s IH]; simpl; [reflexivity|].
  now rewrite ltb_same_head.
Qed.


(** ** The scalar encoder across types *)

(** C2.  For every number [n], every Date (with time value [d]) and
    every string [s] the three encodings exist and are ordered
    number < Date < string, by their tags ["A"], ["B"], ["C"]. *)
Theorem cross_type_ordering (n d : number) (s : string) :
  exists en ed es,
    serializeValueToOrderableString (VNumber n) = Ok ("A" ++ en) /\
    serializeValueToOrderableString (VDate d) = Ok ("B" ++ ed) /\
    serializeValueToOrderableString (VString s) = Ok ("C" ++ es) /\
    ("A" ++ en <? "B" ++ ed)%string = true /\
    ("B" ++ ed <? "C" ++ es)%string = true.
Proof.
  exists (serializeNumberToOrderableString n),
         (serializeNumberToOrderableString d), s.
  repeat split; simpl; apply ltb_first_char; reflexivity.
Qed.

(** ** The scalar encoder on unsupported values *)

Lemma key_component_encodes (v : value) :
  isKeyComponent v = true ->
  exists s, serializeValueToOrderableString v = Ok s.
Proof.
  destruct v; simpl; try discriminate; intros _; eexists; reflexivity.
Qed.

Lemma unsupported_with_type (v : value) (type : string) :
  reported_type v = Some type ->
  serializeValueToOrderableString v = Throw (Error (unsupported_message type)).
Proof.
  destruct v as [ | | b | n | s | t | l | [c|] props]; simpl;
    intros H; inversion H; subst; reflexivity.
Qed.

(** C7.  An object without prototype is neither a number, a Date nor
    a string, and the encoder does not reject it with the
    unsupported-type error: reading [constructor] from the missing
    prototype throws a [TypeError] before the message is built.  (Any
    other unsupported value is rejected with the message naming its
    type: [unsupported_with_type].) *)
Theorem unsupported_type_null_prototype :
  isKeyComponent (VObject None []) = false /\
  serializeValueToOrderableString (VObject None []) = Throw TypeError /\
  ~ UnsupportedKeyTypeError TypeError.
Proof.
  repeat split. intros [type H]. discriminate H.
Qed.

(** ** The composite key serializer *)

Section Serializer.
Context {host : Host}.

Lemma map_result_components (l : list value) :
  (forall k, In k l -> isKeyComponent k = true) ->
  exists strs,
    map_result (fun k => serializeValueToOrderableString k) l = Ok strs /\
    List.length strs = List.length l.
Proof.
  induction l as [|k l IH]; intros Hall.
  - exists []. split; reflexivity.
  - destruct (key_component_encodes k) as [s Hs];
      [apply Hall; now left|].
    destruct IH as [strs [Hstrs Hlen]];
      [intros k' Hk'; apply Hall; now right|].
    exists (s :: strs). simpl. rewrite Hs. simpl. rewrite Hstrs. simpl.
    split; [reflexivity | now rewrite Hlen].
Qed.



(** C4, as the code has it.  Against a compound key path an
    array-shaped key is never compared with the key path's length:
    when its components are numbers, Dates or strings the result is
    their encodings joined by ["%&"], one per component of the key. *)
Theorem compound_key_any_arity (keyPath : KeyPathType) (ks : list value) :
  isCompoundKeyPath keyPath = true ->
  (forall k, In k ks -> isKeyComponent k = true) ->
  exists strs,
    map_result (fun k => serializeValueToOrderableString k) ks = Ok strs /\
    List.length strs = List.length ks /\
    serializeKeyToString (VArray ks) keyPath =
      Ok (String.concat keypathJoinerString strs).
Proof.
  intros Hc Hall.
  destruct (map_result_components ks Hall) as [strs [Hstrs Hlen]].
  exists strs. repeat split; try assumption.
  unfold serializeKeyToString. rewrite Hc, Hstrs. reflexivity.
Qed.

(** C6.  A key whose shape disagrees with the key path is rejected in
    both directions, and the message carries the [JSON.stringify] text
    of the key path and of the key. *)
Theorem shape_mismatch_rejection (key : value) (keyPath : KeyPathType) :
  isArray key <> isCompoundKeyPath keyPath ->
  let kp := concat_text (JSON_stringify (keyPath_value keyPath)) in
  let k := concat_text (JSON_stringify key) in
  exists message,
    serializeKeyToString key keyPath = Throw (Error message) /\
    message = (if isCompoundKeyPath keyPath
               then compound_keypath_message kp k
               else simple_keypath_message kp k) /\
    occurs_in kp message /\ occurs_in k message.
Proof.
  intros Hshape kp k. unfold serializeKeyToString.
  destruct (isCompoundKeyPath keyPath) eqn:Hc.
  - destruct key; try (exfalso; apply Hshape; reflexivity);
      (eexists; split; [reflexivity|]; split; [reflexivity|]; split;
       [ exists "serializeKeyToString called with a compound keypath (";
         eexists; reflexivity
       | exists ("serializeKeyToString called with a compound keypath (" ++
                 kp ++ ") but a non-compound key ("), ")";
         unfold compound_keypath_message;
         repeat rewrite append_assoc; reflexivity ]).
  - destruct key; try (exfalso; apply Hshape; reflexivity).
    eexists; split; [reflexivity|]; split; [reflexivity|]; split.
    + exists "serializeKeyToString called with a non-compound keypath (".
      eexists; reflexivity.
    + exists ("serializeKeyToString called with a non-compound keypath (" ++
              kp ++ ") but a compound key ("), ")".
      unfold simple_keypath_message.
      repeat rewrite append_assoc; reflexivity.
Qed.

End Serializer.

Lemma compound_key_any_arity_witness :
  exists strs,
    map_result (fun k => serializeValueToOrderableString k)
      [VNumber (of_Z 1); VString "b"; VDate (of_Z 0)] = Ok strs /\
    List.length strs = 3%nat /\
    serializeKeyToString (host := reference_host)
      (VArray [VNumber (of_Z 1); VString "b"; VDate (of_Z 0)])
      (KeyPaths ["a"; "b"]) =
      Ok (String.concat keypathJoinerString strs).
Proof.
  apply (compound_key_any_arity (host := reference_host)
           (KeyPaths ["a"; "b"])
           [VNumber (of_Z 1); VString "b"; VDate (of_Z 0)]).
  - reflexivity.
  - intros k [H|[H|[H|[]]]]; subst; reflexivity.
Defined.



(** The arity of the key is not checked: a one-component key against a
    key path of two locators is encoded. *)
Lemma arity_mismatch_is_encoded :
  isCompoundKeyPath (KeyPaths ["a"; "b"]) = true /\
  List.length [VNumber (of_Z 1)] <> List.length ["a"; "b"] /\
  serializeKeyToString (host := reference_host)
    (VArray [VNumber (of_Z 1)]) (KeyPaths ["a"; "b"]) = Ok "A10241".
Proof. repeat split. discriminate. Qed.

Lemma shape_mismatch_rejection_witness :
  (exists message,
     serializeKeyToString (host := reference_host)
       (VArray [VNumber (of_Z 1); VNumber (of_Z 2)]) (KeyPath "singleField") =
       Throw (Error message) /\
     message = simple_keypath_message (quote "singleField") "[1,2]" /\
     occurs_in (quote "singleField") message /\ occurs_in "[1,2]" message) /\
  (exists message,
     serializeKeyToString (host := reference_host)
       (VNumber (of_Z 5)) (KeyPaths ["a"; "b"]) = Throw (Error message) /\
     message = compound_keypath_message
                 ("[" ++ quote "a" ++ "," ++ quote "b" ++ "]") "5" /\
     occurs_in ("[" ++ quote "a" ++ "," ++ quote "b" ++ "]") message /\
     occurs_in "5" message).
Proof.
  split.
  - apply (shape_mismatch_rejection (host := reference_host)
             (VArray [VNumber (of_Z 1); VNumber (of_Z 2)])
             (KeyPath "singleField")).
    discriminate.
  - apply (shape_mismatch_rejection (host := reference_host)
             (VNumber (of_Z 5)) (KeyPaths ["a"; "b"])).
    discriminate.
Defined.

(** ** The key path resolver *)

Section Resolver.
Context {host : Host}.

Lemma existsb_nullish (obj : value) (locators : list string) (locator : string) :
  In locator locators ->
  nullish (getValueForSingleKeypath obj locator) = true ->
  existsb (fun val => isNull val || isUndefined val)
    (map (fun kp => getValueForSingleKeypath obj kp) locators) = true.
Proof.
  intros Hin Hnull. apply existsb_exists.
  exists (getValueForSingleKeypath obj locator). split; [|exact Hnull].
  apply in_map_iff. exists locator. split; [reflexivity | exact Hin].
Qed.

Lemma unresolved_key (obj : value) (keyPath : KeyPathType)
    (locator : string) :
  In locator (arrayifyKeyPath keyPath) ->
  nullish (get obj locator) = true ->
  getKeyForKeypath obj keyPath = VUndefined.
Proof.
  intros Hin Hnull. unfold getKeyForKeypath.
  now rewrite (existsb_nullish obj _ locator Hin Hnull).
Qed.

(** C5.  When one locator of the key path resolves to [null] or
    [undefined] on the record, the key is [undefined] as a whole and
    not an array of the components that did resolve. *)
Theorem undefined_propagation (obj : value) (keyPath : KeyPathType)
    (locator : string) :
  In locator (arrayifyKeyPath keyPath) ->
  nullish (get obj locator) = true ->
  getKeyForKeypath obj keyPath = VUndefined /\
  forall components, getKeyForKeypath obj keyPath <> VArray components.
Proof.
  intros Hin Hnull.
  rewrite (unresolved_key obj keyPath locator Hin Hnull).
  split; [reflexivity | discriminate].
Qed.

(** The resolved key when every locator resolves. *)
Lemma resolved_key (obj : value) (keyPath : KeyPathType) :
  (forall locator, In locator (arrayifyKeyPath keyPath) ->
     nullish (get obj locator) = false) ->
  getKeyForKeypath obj keyPath =
    match keyPath with
    | KeyPath locator => get obj locator
    | KeyPaths locators => VArray (map (get obj) locators)
    end.
Proof.
  intros Hall. unfold getKeyForKeypath.
  assert (Hex : existsb (fun val => isNull val || isUndefined val)
            (map (fun kp => getValueForSingleKeypath obj kp)
               (arrayifyKeyPath keyPath)) = false).
  { apply not_true_is_false. intros Hex.
    apply existsb_exists in Hex. destruct Hex as [v [Hv Hn]].
    apply in_map_iff in Hv. destruct Hv as [locator [Hl Hin]].
    subst v. unfold getValueForSingleKeypath in Hn.
    specialize (Hall locator Hin). unfold nullish in Hall. congruence. }
  rewrite Hex. destruct keyPath; reflexivity.
Qed.

End Resolver.

Lemma undefined_propagation_witness :
  let record := VObject (Some "function Object() { [native code] }")
                  [("a", VNumber (of_Z 1))] in
  In "b" (arrayifyKeyPath (KeyPaths ["a"; "b"])) /\
  nullish (get (Host := reference_host) record "b") = true /\
  getKeyForKeypath (host := reference_host) record (KeyPaths ["a"; "b"]) =
    VUndefined /\
  forall components,
    getKeyForKeypath (host := reference_host) record (KeyPaths ["a"; "b"]) <>
    VArray components.
Proof.
  intros record.
  assert (Hin : In "b" (arrayifyKeyPath (KeyPaths ["a"; "b"])))
    by (simpl; auto).
  assert (Hnull : nullish (get (Host := reference_host) record "b") = true)
    by reflexivity.
  split; [exact Hin|]. split; [exact Hnull|].
  exact (undefined_propagation (host := reference_host) record
           (KeyPaths ["a"; "b"]) "b" Hin Hnull).
Defined.

(** ** The key list normaliser *)

Section Normaliser.
Context {host : Host}.

(** C9.  Against a compound key path, an array whose first element is
    not an array is one compound key and comes back wrapped in a
    one-element batch, and an array whose first element is an array
    comes back as it is; so [[1,2]] against two locators gives
    [[[1,2]]], not [[[1],[2]]]. *)
Theorem single_compound_key_is_wrapped (p q : string) :
  formListOfKeys (VArray [VNumber (of_Z 1); VNumber (of_Z 2)])
    (KeyPaths [p; q]) =
    Ok [VArray [VNumber (of_Z 1); VNumber (of_Z 2)]] /\
  formListOfKeys (VArray [VNumber (of_Z 1); VNumber (of_Z 2)])
    (KeyPaths [p; q]) <>
    Ok [VArray [VNumber (of_Z 1)]; VArray [VNumber (of_Z 2)]] /\
  (forall keyPath keys,
     isCompoundKeyPath keyPath = true ->
     formListOfKeys (VArray keys) keyPath =
       if isArray (nth 0 keys VUndefined) then Ok keys
       else Ok [VArray keys]).
Proof.
  split; [reflexivity|]. split; [discriminate|].
  intros keyPath keys Hc. unfold formListOfKeys. rewrite Hc.
  destruct (isArray (nth 0 keys VUndefined)); reflexivity.
Qed.

End Normaliser.

Lemma single_compound_key_is_wrapped_witness :
  isCompoundKeyPath (KeyPaths ["a"; "b"]) = true /\
  formListOfKeys (host := reference_host)
    (VArray [VArray [VNumber (of_Z 1); VNumber (of_Z 2)];
             VArray [VNumber (of_Z 3); VNumber (of_Z 4)]])
    (KeyPaths ["a"; "b"]) =
    Ok [VArray [VNumber (of_Z 1); VNumber (of_Z 2)];
        VArray [VNumber (of_Z 3); VNumber (of_Z 4)]].
Proof.
  split; [reflexivity|].
  apply (proj2 (proj2 (single_compound_key_is_wrapped
                         (host := reference_host) "a" "b"))
           (KeyPaths ["a"; "b"])
           [VArray [VNumber (of_Z 1); VNumber (of_Z 2)];
            VArray [VNumber (of_Z 3); VNumber (of_Z 4)]]).
  reflexivity.
Defined.

(** ** Resolving, then encoding *)

Section Pipeline.
Context {host : Host}.

(** C10.  A key path that is an array of one locator is not compound,
    yet its key, when the locator resolves, is a one-element array;
    so resolving and then encoding throws the non-compound-keypath
    error whenever a key exists, and returns [undefined] otherwise:
    it never returns an encoded key. *)
Theorem singleton_keypath_never_encodes (obj : value) (locator : string) :
  isCompoundKeyPath (KeyPaths [locator]) = false /\
  (nullish (get obj locator) = false ->
     getKeyForKeypath obj (KeyPaths [locator]) = VArray [get obj locator] /\
     getSerializedKeyForKeypath obj (KeyPaths [locator]) =
       Throw (Error (simple_keypath_message
         (concat_text (JSON_stringify (keyPath_value (KeyPaths [locator]))))
         (concat_text (JSON_stringify (VArray [get obj locator])))))) /\
  (nullish (get obj locator) = true ->
     getSerializedKeyForKeypath obj (KeyPaths [locator]) = Ok None) /\
  (forall s,
     getSerializedKeyForKeypath obj (KeyPaths [locator]) <> Ok (Some s)).
Proof.
  assert (Hkey : nullish (get obj locator) = false ->
            getKeyForKeypath obj (KeyPaths [locator]) =
              VArray [get obj locator]).
  { intros Hn. rewrite resolved_key; [reflexivity|].
    intros l [Hl|[]]. now subst l. }
  assert (Hthrow : nullish (get obj locator) = false ->
            getSerializedKeyForKeypath obj (KeyPaths [locator]) =
              Throw (Error (simple_keypath_message
                (concat_text
                   (JSON_stringify (keyPath_value (KeyPaths [locator]))))
                (concat_text (JSON_stringify (VArray [get obj locator])))))).
  { intros Hn. unfold getSerializedKeyForKeypath. rewrite (Hkey Hn).
    reflexivity. }
  assert (Hnone : nullish (get obj locator) = true ->
            getSerializedKeyForKeypath obj (KeyPaths [locator]) = Ok None).
  { intros Hn. unfold getSerializedKeyForKeypath.
    rewrite (unresolved_key obj (KeyPaths [locator]) locator);
      [reflexivity | simpl; auto | exact Hn]. }
  split; [reflexivity|]. split; [auto|]. split; [exact Hnone|].
  intros s. destruct (nullish (get obj locator)) eqn:Hn.
  - rewrite (Hnone eq_refl). discriminate.
  - rewrite (Hthrow eq_refl). discriminate.
Qed.

End Pipeline.

Lemma singleton_keypath_never_encodes_witness :
  let record := VObject (Some "function Object() { [native code] }")
                  [("a", VNumber (of_Z 1))] in
  nullish (get (Host := reference_host) record "a") = false /\
  getKeyForKeypath (host := reference_host) record (KeyPaths ["a"]) =
    VArray [VNumber (of_Z 1)] /\
  getSerializedKeyForKeypath (host := reference_host) record (KeyPaths ["a"]) =
    Throw (Error (simple_keypath_message ("[" ++ quote "a" ++ "]") "[1]")) /\
  nullish (get (Host := reference_host) record "b") = true /\
  getSerializedKeyForKeypath (host := reference_host) record (KeyPaths ["b"]) =
    Ok None.
Proof.
  intros record.
  destruct (singleton_keypath_never_encodes (host := reference_host)
              record "a") as [_ [Hsome _]].
  destruct (singleton_keypath_never_encodes (host := reference_host)
              record "b") as [_ [_ [Hnone _]]].
  split; [reflexivity|].
  destruct (Hsome eq_refl) as [Hkey Hthrow].
  split; [exact Hkey|]. split; [exact Hthrow|].
  split; [reflexivity|]. exact (Hnone eq_refl).
Defined.

(** ** The number encoder *)

Lemma formatFixed_zero_padded (n : number) :
  formatFixed n 4 = zero_padded 4 (ToString n).
Proof.
  unfold formatFixed, zero_padded.
  destruct (String.length (ToString n)) as [|[|[|[|len]]]] eqn:Hlen;
    try reflexivity.
  replace (0 <? 4 - Z.of_nat (S (S (S (S len))))) with false
    by (symmetry; apply Z.ltb_ge; lia).
  reflexivity.
Qed.

Lemma forallb_below (P : Z -> bool) (n : Z) :
  forallb P (map Z.of_nat (seq 0 (Z.to_nat n))) = true ->
  forall z, 0 <= z < n -> P z = true.
Proof.
  intros Hall z Hz. rewrite forallb_forall in Hall. apply Hall.
  apply in_map_iff. exists (Z.to_nat z). split; [lia|].
  apply in_seq. lia.
Qed.

(** The exponent field has four characters for every biased exponent
    from 0 to 2048, that is for every decimal exponent from -1024 to
    1024 (those of the doubles go from -324 to 308). *)
Lemma exponent_field_length (z : Z) :
  0 <= z <= 2048 -> String.length (exponent_field (of_Z z)) = 4%nat.
Proof.
  intros Hz. apply Nat.eqb_eq.
  apply (forallb_below
           (fun z => Nat.eqb (String.length (exponent_field (of_Z z))) 4)
           2049);
    [vm_compute; reflexivity | lia].
Qed.

(** Where the computed exponent is the exact one, the encoder returns
    what the formula of the specification gives. *)
Lemma encoder_follows_formula (n : number) :
  Math_floor (div (Math_log (SFabs n)) Math_LN10) =
    of_Z (floor_log10 (SFabs n)) ->
  serializeNumberToOrderableString n = formula_serializeNumber n.
Proof.
  intros Hexp.
  unfold serializeNumberToOrderableString, formula_serializeNumber.
  destruct (strict_eq n (of_Z 0) || isNaN n || negb (isFinite n)) eqn:Hplain;
    [reflexivity|].
  destruct n as [s|s| |s m e];
    try (destruct s; vm_compute in Hplain; discriminate Hplain);
    try (vm_compute in Hplain; discriminate Hplain).
  unfold exponent_field. rewrite <- !formatFixed_zero_padded.
  destruct s;
    [ change (lt (S754_finite true m e) (of_Z 0)) with true
    | change (lt (S754_finite false m e) (of_Z 0)) with false ];
    cbv zeta;
    change (neg (S754_finite true m e)) with (S754_finite false m e);
    change (SFabs (S754_finite true m e)) with (S754_finite false m e) in *;
    change (SFabs (S754_finite false m e)) with (S754_finite false m e) in *;
    change (negb true) with false; change (negb false) with true;
    cbv iota; rewrite Hexp; reflexivity.
Qed.

(** C8.  The encoder does not compute the formula at n = 1000.  The
    quotient [Math.log(1000) / Math.LN10] is 2.9999999999999996 in
    binary64, so the exponent the code takes is 2 where
    [floor(log10 1000)] is 3, the mantissa is 10, and the result is
    ["102610"] where the formula gives ["10271"]. *)
Theorem number_formula_breaks_at_1000 :
  let n := of_Z 1000 in
  ToString (Math_log n) = "6.907755278982137" /\
  ToString Math_LN10 = "2.302585092994046" /\
  ToString (div (Math_log n) Math_LN10) = "2.9999999999999996" /\
  Math_floor (div (Math_log n) Math_LN10) = of_Z 2 /\
  floor_log10 n = 3 /\ 10 ^ 3 <= 1000 < 10 ^ (3 + 1) /\
  div n (Math_pow10 (of_Z 2)) = of_Z 10 /\
  serializeNumberToOrderableString n = "102610" /\
  formula_serializeNumber n = "10271".
Proof. vm_compute. repeat split; intros H; discriminate H. Qed.

(** C1.  The chain -5 < -1 < 0 < 1 < 100 is encoded in order, yet the
    order is not kept for all finite numbers.  999 < 1000, and 1000
    encodes below 999: its computed exponent is 2 and its mantissa 10.
    And of the two negative numbers a = -9.99999904632568359375 and
    b = -9.5, a < b, the first encodes above the second: the text of
    [10 - mantissa] is in exponent notation below 1e-6. *)
Theorem number_order_inversion :
  let a := of_binary (- (10 * 2 ^ 20 - 1)) (-20) in
  let b := of_binary (-19) (-1) in
  (serializeValueToOrderableString (VNumber (of_Z (-5))) = Ok "A-10245" /\
   serializeValueToOrderableString (VNumber (of_Z (-1))) = Ok "A-10249" /\
   serializeValueToOrderableString (VNumber (of_Z 0)) = Ok "A0" /\
   serializeValueToOrderableString (VNumber (of_Z 1)) = Ok "A10241" /\
   serializeValueToOrderableString (VNumber (of_Z 100)) = Ok "A10261" /\
   ("A-10245" <? "A-10249")%string = true /\
   ("A-10249" <? "A0")%string = true /\
   ("A0" <? "A10241")%string = true /\
   ("A10241" <? "A10261")%string = true) /\
  (lt (of_Z 999) (of_Z 1000) = true /\
   serializeValueToOrderableString (VNumber (of_Z 999)) = Ok "A10269.99" /\
   serializeValueToOrderableString (VNumber (of_Z 1000)) = Ok "A102610" /\
   ("A102610" <? "A10269.99")%string = true) /\
  (lt a b = true /\
   ToString a = "-9.999999046325684" /\ ToString b = "-9.5" /\
   serializeValueToOrderableString (VNumber a) =
     Ok "A-10249.5367431640625e-7" /\
   serializeValueToOrderableString (VNumber b) = Ok "A-10240.5" /\
   ("A-10240.5" <? "A-10249.5367431640625e-7")%string = true).
Proof. vm_compute. repeat split. Qed.

(* ================================================================== *)
(** * Further properties of the module *)
(* ================================================================== *)

(** ** Concatenation of strings *)

Lemma append_cancel (p s t : string) : p ++ s = p ++ t -> s = t.
Proof.
  induction p as [|c p IH]; simpl; intros H; [exact H|].
  injection H as H. auto.
Qed.

Lemma append_length_sum (s t : string) :
  String.length (s ++ t) = (String.length s + String.length t)%nat.
Proof. induction s as [|c s IH]; simpl; [reflexivity | now rewrite IH]. Qed.

(** ** The scalar encoder *)

(** X1.  The scalar encoder returns a string for numbers, Dates and
    strings and for nothing else, and the string it returns starts
    with the tag of the type: ["A"], ["B"] or ["C"]. *)
Theorem scalar_encoding_domain (v : value) :
  (isKeyComponent v = true <->
   exists s, serializeValueToOrderableString v = Ok s) /\
  (forall s, serializeValueToOrderableString v = Ok s ->
     exists payload, s = String (tag v) payload).
Proof.
  split; [split|].
  - apply key_component_encodes.
  - intros [s Hs].
    destruct v as [ | | b | n | x | t | l | [c|] props];
      try reflexivity; discriminate Hs.
  - intros s Hs.
    destruct v as [ | | b | n | x | t | l | [c|] props];
      try discriminate Hs; injection Hs as <-; eexists; reflexivity.
Qed.

Lemma scalar_encoding_domain_witness :
  (exists s, serializeValueToOrderableString (VDate (of_Z 0)) = Ok s) /\
  (exists payload, "B0" = String (tag (VDate (of_Z 0))) payload).
Proof.
  split.
  - apply (proj1 (proj1 (scalar_encoding_domain (VDate (of_Z 0))))).
    reflexivity.
  - apply (proj2 (scalar_encoding_domain (VDate (of_Z 0))) "B0").
    vm_compute. reflexivity.
Defined.

(** X2.  On strings the encoding keeps the order and is one to one:
    two strings compare as their encodings do, and equal encodings
    come from equal strings. *)
Theorem string_order_preserved (s t es et : string) :
  serializeValueToOrderableString (VString s) = Ok es ->
  serializeValueToOrderableString (VString t) = Ok et ->
  (es <? et)%string = (s <? t)%string /\ (es = et -> s = t).
Proof.
  intros Hs Ht. injection Hs as <-. injection Ht as <-. split.
  - apply (ltb_same_head "C" s t).
  - intros H. injection H as H. exact H.
Qed.

Lemma string_order_preserved_witness :
  ("Cab" <? "Cb")%string = ("ab" <? "b")%string /\ ("Cab" = "Cb" -> "ab" = "b").
Proof.
  apply (string_order_preserved "ab" "b" "Cab" "Cb"); reflexivity.
Defined.

(** X3.  Dates are ordered as the numbers of their time values are:
    the encodings of two Dates compare as the encodings of the two
    time values taken as numbers. *)
Theorem date_order_is_number_order (t1 t2 : number) (n1 n2 d1 d2 : string) :
  serializeValueToOrderableString (VNumber t1) = Ok n1 ->
  serializeValueToOrderableString (VNumber t2) = Ok n2 ->
  serializeValueToOrderableString (VDate t1) = Ok d1 ->
  serializeValueToOrderableString (VDate t2) = Ok d2 ->
  (d1 <? d2)%string = (n1 <? n2)%string.
Proof.
  intros H1 H2 H3 H4.
  injection H1 as <-. injection H2 as <-. injection H3 as <-. injection H4 as <-.
  change ((String "B" (serializeNumberToOrderableString t1) <?
           String "B" (serializeNumberToOrderableString t2))%string =
          (String "A" (serializeNumberToOrderableString t1) <?
           String "A" (serializeNumberToOrderableString t2))%string).
  now rewrite !ltb_same_head.
Qed.

Lemma date_order_is_number_order_witness :
  ("B10241" <? "B10261")%string = ("A10241" <? "A10261")%string.
Proof.
  apply (date_order_is_number_order (of_Z 1) (of_Z 100)
           "A10241" "A10261" "B10241" "B10261");
    vm_compute; reflexivity.
Defined.

(** X4.  Every negative number, finite or not, is encoded below zero,
    and the two zeros have one encoding. *)
Theorem negative_below_zero (n : number) (s : bool) :
  lt n (of_Z 0) = true ->
  serializeNumberToOrderableString (S754_zero s) = "0" /\
  (serializeNumberToOrderableString n <? "0")%string = true /\
  exists en, serializeValueToOrderableString (VNumber n) = Ok en /\
    (en <? "A0")%string = true.
Proof.
  intros Hneg.
  assert (Hzero : serializeNumberToOrderableString (S754_zero s) = "0")
    by (destruct s; reflexivity).
  assert (Hlt : (serializeNumberToOrderableString n <? "0")%string = true).
  { destruct n as [z|z| |z m e];
      try (destruct z; vm_compute in Hneg; discriminate Hneg);
      try (vm_compute in Hneg; discriminate Hneg).
    - destruct z; [reflexivity | vm_compute in Hneg; discriminate Hneg].
    - destruct z; [|vm_compute in Hneg; discriminate Hneg].
      unfold serializeNumberToOrderableString.
      change (strict_eq (S754_finite true m e) (of_Z 0)) with false.
      change (lt (S754_finite true m e) (of_Z 0)) with true.
      cbv beta iota zeta delta [isNaN isFinite negb orb].
      apply ltb_first_char. reflexivity. }
  split; [exact Hzero|]. split; [exact Hlt|].
  eexists. split; [reflexivity|].
  change (("A" ++ serializeNumberToOrderableString n)%string)
    with (String "A" (serializeNumberToOrderableString n)).
  change "A0" with (String "A" "0"). now rewrite ltb_same_head.
Qed.

Lemma negative_below_zero_witness :
  lt (of_binary (-1) (-1074)) (of_Z 0) = true /\
  serializeNumberToOrderableString (S754_zero true) = "0" /\
  (serializeNumberToOrderableString (of_binary (-1) (-1074)) <? "0")%string =
    true /\
  exists en,
    serializeValueToOrderableString (VNumber (of_binary (-1) (-1074))) =
      Ok en /\ (en <? "A0")%string = true.
Proof.
  split; [vm_compute; reflexivity|].
  apply (negative_below_zero (of_binary (-1) (-1074)) true).
  vm_compute. reflexivity.
Defined.

(** ** Mapping a callback that may throw *)

Lemma map_result_Forall2 {A B : Type} (f : A -> result B) (l : list A)
    (r : list B) :
  map_result f l = Ok r <-> Forall2 (fun a b => f a = Ok b) l r.
Proof.
  revert r. induction l as [|a l IH]; intros r; simpl; split.
  - intros H. injection H as <-. constructor.
  - intros H. inversion H. reflexivity.
  - destruct (f a) as [b|e] eqn:Hb; simpl; [|discriminate].
    destruct (map_result f l) as [bs|e] eqn:Hbs; simpl; [|discriminate].
    intros H. injection H as <-. constructor; [exact Hb|]. now apply IH.
  - intros H. inversion H as [|a' b l' bs Hb Hbs]; subst.
    rewrite Hb. simpl. apply IH in Hbs. rewrite Hbs. reflexivity.
Qed.

Lemma map_result_app {A B : Type} (f : A -> result B) (l1 l2 : list A) :
  map_result f (l1 ++ l2)%list =
    (bs1 <- map_result f l1 ;; bs2 <- map_result f l2 ;; Ok (bs1 ++ bs2)%list).
Proof.
  induction l1 as [|a l1 IH]; simpl.
  - destruct (map_result f l2); reflexivity.
  - destruct (f a) as [b|e]; simpl; [|reflexivity].
    rewrite IH. destruct (map_result f l1) as [bs1|e]; simpl; [|reflexivity].
    destruct (map_result f l2); reflexivity.
Qed.

Lemma map_result_first_throw {A B : Type} (f : A -> result B)
    (before after : list A) (a : A) (e : error) :
  (forall x, In x before -> exists b, f x = Ok b) ->
  f a = Throw e ->
  map_result f (before ++ a :: after)%list = Throw e.
Proof.
  intros Hbefore Ha. induction before as [|x before IH]; simpl.
  - rewrite Ha. reflexivity.
  - destruct (Hbefore x) as [b Hb]; [now left|]. rewrite Hb. simpl.
    rewrite IH; [reflexivity|]. intros y Hy. apply Hbefore. now right.
Qed.

Lemma concat_snoc (sep : string) (l : list string) (x : string) :
  l <> [] ->
  String.concat sep (l ++ [x])%list = String.concat sep l ++ sep ++ x.
Proof.
  induction l as [|a l IH]; intros Hne; [contradiction|].
  destruct l as [|b l].
  - reflexivity.
  - change (String.concat sep ((a :: b :: l) ++ [x])%list)
      with (a ++ sep ++ String.concat sep ((b :: l) ++ [x])%list).
    rewrite IH by discriminate.
    change (String.concat sep (a :: b :: l))
      with (a ++ sep ++ String.concat sep (b :: l)).
    now rewrite !append_assoc.
Qed.

(** ** Compound keys *)

Section CompoundKeys.
Context {host : Host}.

Lemma compound_key_encoding (keyPath : KeyPathType) (ks : list value)
    (s : string) :
  isCompoundKeyPath keyPath = true ->
  serializeKeyToString (VArray ks) keyPath = Ok s <->
  exists strs,
    Forall2 (fun k e => serializeValueToOrderableString k = Ok e) ks strs /\
    s = String.concat keypathJoinerString strs.
Proof.
  intros Hc. unfold serializeKeyToString. rewrite Hc. split.
  - destruct (map_result _ ks) as [strs|e] eqn:Hm; simpl; [|discriminate].
    intros H. injection H as <-. exists strs. split; [|reflexivity].
    now apply (map_result_Forall2
                 (fun k => serializeValueToOrderableString k)).
  - intros [strs [Hall ->]].
    apply (map_result_Forall2
             (fun k => serializeValueToOrderableString k)) in Hall.
    rewrite Hall. reflexivity.
Qed.

(** X5.  Appending a component to a compound key appends the joiner
    and the component's encoding to the key's encoding: the encoding
    of the shorter key is a prefix of the encoding of the longer. *)
Theorem compound_encoding_extends (keyPath : KeyPathType) (ks : list value)
    (k : value) (s e : string) :
  isCompoundKeyPath keyPath = true ->
  ks <> [] ->
  serializeKeyToString (VArray ks) keyPath = Ok s ->
  serializeValueToOrderableString k = Ok e ->
  serializeKeyToString (VArray (ks ++ [k])%list) keyPath =
    Ok (s ++ keypathJoinerString ++ e).
Proof.
  intros Hc Hne Hs He.
  apply (compound_key_encoding keyPath ks s Hc) in Hs.
  destruct Hs as [strs [Hall ->]].
  apply (compound_key_encoding keyPath (ks ++ [k])%list _ Hc).
  exists (strs ++ [e])%list. split.
  - apply Forall2_app; [exact Hall | constructor; [exact He | constructor]].
  - symmetry. apply concat_snoc. intros ->. inversion Hall; subst.
    now apply Hne.
Qed.

(** X6.  Between two compound keys of two components with the same
    first component, the second component decides: the keys' encodings
    compare as the encodings of their second components do. *)
Theorem compound_order_second_component (keyPath : KeyPathType)
    (k x y : value) (a b ex ey : string) :
  isCompoundKeyPath keyPath = true ->
  serializeValueToOrderableString x = Ok ex ->
  serializeValueToOrderableString y = Ok ey ->
  serializeKeyToString (VArray [k; x]) keyPath = Ok a ->
  serializeKeyToString (VArray [k; y]) keyPath = Ok b ->
  (a <? b)%string = (ex <? ey)%string.
Proof.
  intros Hc Hx Hy Ha Hb.
  apply (compound_key_encoding keyPath _ a Hc) in Ha.
  apply (compound_key_encoding keyPath _ b Hc) in Hb.
  destruct Ha as [sa [Ha ->]]. destruct Hb as [sb [Hb ->]].
  inversion Ha as [|? ek ? ra Hk Hra]; subst.
  inversion Hra as [|? ex' ? rx Hx' Hnil]; subst. inversion Hnil; subst.
  inversion Hb as [|? ek' ? rb Hk' Hrb]; subst.
  inversion Hrb as [|? ey' ? ry Hy' Hnil']; subst. inversion Hnil'; subst.
  assert (ek' = ek) by congruence. assert (ex' = ex) by congruence.
  assert (ey' = ey) by congruence. subst.
  change (String.concat keypathJoinerString [ek; ex])
    with (ek ++ keypathJoinerString ++ ex).
  change (String.concat keypathJoinerString [ek; ey])
    with (ek ++ keypathJoinerString ++ ey).
  now rewrite !ltb_common_prefix.
Qed.

(** X7.  The first component does not always decide.  For every string
    [s] the key [[s, x]] is encoded above the key [[s ++ "!", y]],
    although [s] is below [s ++ "!"]: after the common part the joiner
    ["%"] meets ["!"], a smaller character. *)
Theorem first_component_not_dominant (keyPath : KeyPathType)
    (s : string) (x y : value) (a b : string) :
  isCompoundKeyPath keyPath = true ->
  serializeKeyToString (VArray [VString s; x]) keyPath = Ok a ->
  serializeKeyToString (VArray [VString (s ++ "!"); y]) keyPath = Ok b ->
  (s <? s ++ "!")%string = true /\ (b <? a)%string = true.
Proof.
  intros Hc Ha Hb. split; [apply ltb_prefix_char|].
  apply (compound_key_encoding keyPath _ a Hc) in Ha.
  apply (compound_key_encoding keyPath _ b Hc) in Hb.
  destruct Ha as [sa [Ha ->]]. destruct Hb as [sb [Hb ->]].
  inversion Ha as [|? es ? ra Hs Hra]; subst.
  inversion Hra as [|? ex ? rx Hx Hnil]; subst. inversion Hnil; subst.
  inversion Hb as [|? es' ? rb Hs' Hrb]; subst.
  inversion Hrb as [|? ey ? ry Hy Hnil']; subst. inversion Hnil'; subst.
  injection Hs as <-. injection Hs' as <-.
  change ((String "C" ((s ++ "!") ++ "%&" ++ ey) <?
           String "C" (s ++ "%&" ++ ex))%string = true).
  rewrite ltb_same_head, append_assoc, ltb_common_prefix.
  apply ltb_first_char. reflexivity.
Qed.

(** X8.  The encoding of compound keys is not one to one: a string
    component that contains the joiner followed by the string tag is
    read as two components.  For all strings [a], [b], [c] the keys
    [[a ++ "%&C" ++ b, c]] and [[a, b ++ "%&C" ++ c]] differ and have
    the same encoding. *)
Theorem joiner_collision (keyPath : KeyPathType) (a b c : string) :
  isCompoundKeyPath keyPath = true ->
  VArray [VString (a ++ "%&C" ++ b); VString c] <>
  VArray [VString a; VString (b ++ "%&C" ++ c)] /\
  serializeKeyToString (VArray [VString (a ++ "%&C" ++ b); VString c])
    keyPath =
  serializeKeyToString (VArray [VString a; VString (b ++ "%&C" ++ c)])
    keyPath /\
  serializeKeyToString (VArray [VString a; VString (b ++ "%&C" ++ c)])
    keyPath =
  Ok ("C" ++ a ++ "%&C" ++ b ++ "%&C" ++ c).
Proof.
  intros Hc.
  assert (Hpair : forall x y,
            serializeKeyToString (VArray [VString x; VString y]) keyPath =
              Ok (String "C" (x ++ "%&C" ++ y))).
  { intros x y. unfold serializeKeyToString. rewrite Hc. reflexivity. }
  split; [|split].
  - intros H. injection H as H _.
    apply (f_equal String.length) in H.
    rewrite append_length_sum in H. simpl in H. lia.
  - rewrite !Hpair. now rewrite append_assoc.
  - rewrite Hpair. reflexivity.
Qed.

(** X9.  The components of a compound key are encoded from left to
    right and the first one the scalar encoder rejects decides the
    outcome: the key is rejected with that component's error. *)
Theorem first_rejected_component (keyPath : KeyPathType)
    (before after : list value) (bad : value) (e : error) :
  isCompoundKeyPath keyPath = true ->
  (forall k, In k before -> isKeyComponent k = true) ->
  serializeValueToOrderableString bad = Throw e ->
  serializeKeyToString (VArray (before ++ bad :: after)%list) keyPath = Throw e.
Proof.
  intros Hc Hbefore Hbad. unfold serializeKeyToString. rewrite Hc.
  rewrite (map_result_first_throw _ before after bad e); [reflexivity| |exact Hbad].
  intros k Hk. apply key_component_encodes. now apply Hbefore.
Qed.

End CompoundKeys.

Lemma compound_encoding_extends_witness :
  serializeKeyToString (host := reference_host)
    (VArray ([VNumber (of_Z 1); VString "b"] ++ [VDate (of_Z 0)])%list)
    (KeyPaths ["a"; "b"]) =
  Ok ("A10241%&Cb" ++ keypathJoinerString ++ "B0").
Proof.
  apply (compound_encoding_extends (host := reference_host)
           (KeyPaths ["a"; "b"]) [VNumber (of_Z 1); VString "b"]
           (VDate (of_Z 0)) "A10241%&Cb" "B0");
    try (vm_compute; reflexivity).
  discriminate.
Defined.

Lemma compound_order_second_component_witness :
  ("A10241%&Cb" <? "A10241%&Cc")%string = ("Cb" <? "Cc")%string.
Proof.
  apply (compound_order_second_component (host := reference_host)
           (KeyPaths ["a"; "b"]) (VNumber (of_Z 1)) (VString "b") (VString "c")
           "A10241%&Cb" "A10241%&Cc" "Cb" "Cc");
    vm_compute; reflexivity.
Defined.

Lemma first_component_not_dominant_witness :
  ("a" <? "a" ++ "!")%string = true /\ ("Ca!%&A10241" <? "Ca%&A10242")%string = true.
Proof.
  apply (first_component_not_dominant (host := reference_host)
           (KeyPaths ["p"; "q"]) "a" (VNumber (of_Z 2)) (VNumber (of_Z 1))
           "Ca%&A10242" "Ca!%&A10241");
    vm_compute; reflexivity.
Defined.

Lemma joiner_collision_witness :
  VArray [VString ("x" ++ "%&C" ++ "y"); VString "z"] <>
  VArray [VString "x"; VString ("y" ++ "%&C" ++ "z")] /\
  serializeKeyToString (host := reference_host)
    (VArray [VString ("x" ++ "%&C" ++ "y"); VString "z"])
    (KeyPaths ["p"; "q"]) =
  serializeKeyToString (host := reference_host)
    (VArray [VString "x"; VString ("y" ++ "%&C" ++ "z")])
    (KeyPaths ["p"; "q"]) /\
  serializeKeyToString (host := reference_host)
    (VArray [VString "x"; VString ("y" ++ "%&C" ++ "z")])
    (KeyPaths ["p"; "q"]) =
  Ok ("C" ++ "x" ++ "%&C" ++ "y" ++ "%&C" ++ "z").
Proof.
  apply (joiner_collision (host := reference_host)
           (KeyPaths ["p"; "q"]) "x" "y" "z").
  reflexivity.
Defined.

Lemma first_rejected_component_witness :
  serializeKeyToString (host := reference_host)
    (VArray ([VNumber (of_Z 1)] ++ VBoolean true :: [VNull])%list)
    (KeyPaths ["p"; "q"]) =
  Throw (Error (unsupported_message "boolean")).
Proof.
  apply (first_rejected_component (host := reference_host)
           (KeyPaths ["p"; "q"]) [VNumber (of_Z 1)] [VNull] (VBoolean true)).
  - reflexivity.
  - intros k [H|[]]; subst; reflexivity.
  - reflexivity.
Defined.

(** ** Resolving a key *)

Section ResolvedKeys.
Context {host : Host}.

Lemma nullish_locator (obj : value) (locators : list string) :
  existsb (fun val => isNull val || isUndefined val)
    (map (fun kp => getValueForSingleKeypath obj kp) locators) = true ->
  exists locator, In locator locators /\ nullish (get obj locator) = true.
Proof.
  intros Hex. apply existsb_exists in Hex. destruct Hex as [v [Hv Hn]].
  apply in_map_iff in Hv. destruct Hv as [locator [<- Hin]].
  exists locator. split; [exact Hin | exact Hn].
Qed.

Lemma all_resolved (obj : value) (keyPath : KeyPathType) :
  getKeyForKeypath obj keyPath <> VUndefined ->
  forall locator, In locator (arrayifyKeyPath keyPath) ->
    nullish (get obj locator) = false.
Proof.
  intros Hdef locator Hin.
  destruct (nullish (get obj locator)) eqn:Hn; [|reflexivity].
  exfalso. apply Hdef. now apply (unresolved_key obj keyPath locator).
Qed.

(** X10.  The key of a record is [undefined] exactly when one of the
    locators of the key path resolves to [null] or [undefined]. *)
Theorem key_undefined_iff (obj : value) (keyPath : KeyPathType) :
  getKeyForKeypath obj keyPath = VUndefined <->
  exists locator,
    In locator (arrayifyKeyPath keyPath) /\ nullish (get obj locator) = true.
Proof.
  split.
  - intros Hundef.
    destruct (existsb (fun val => isNull val || isUndefined val)
                (map (fun kp => getValueForSingleKeypath obj kp)
                   (arrayifyKeyPath keyPath))) eqn:Hex.
    + now apply nullish_locator.
    + exfalso. unfold getKeyForKeypath in Hundef. rewrite Hex in Hundef.
      destruct keyPath as [locator|locators]; simpl in *; [|discriminate].
      unfold getValueForSingleKeypath in *. rewrite Hundef in Hex.
      discriminate Hex.
  - intros [locator [Hin Hn]]. now apply (unresolved_key obj keyPath locator).
Qed.

(** X11.  A key resolved against an array of locators is the array of
    the keys resolved against each locator alone: one component per
    locator, in the order of the key path, none [null] or
    [undefined]. *)
Theorem compound_key_of_simple_keys (obj : value) (locators : list string) :
  getKeyForKeypath obj (KeyPaths locators) <> VUndefined ->
  getKeyForKeypath obj (KeyPaths locators) =
    VArray (map (fun l => getKeyForKeypath obj (KeyPath l)) locators) /\
  Forall (fun l => nullish (getKeyForKeypath obj (KeyPath l)) = false)
    locators.
Proof.
  intros Hdef. pose proof (all_resolved obj (KeyPaths locators) Hdef) as Hall.
  simpl in Hall.
  assert (Hone : forall l, In l locators ->
            getKeyForKeypath obj (KeyPath l) = get obj l).
  { intros l Hl. rewrite resolved_key; [reflexivity|].
    intros l' [<-|[]]. now apply Hall. }
  split.
  - rewrite resolved_key by exact Hall. f_equal.
    apply map_ext_in. intros l Hl. now rewrite Hone.
  - apply Forall_forall. intros l Hl. rewrite Hone by exact Hl.
    now apply Hall.
Qed.

(** X12.  Against the empty array of locators every record has the
    empty key, never [undefined], and resolving then encoding throws
    the non-compound-keypath error. *)
Theorem empty_key_path (obj : value) :
  getKeyForKeypath obj (KeyPaths []) = VArray [] /\
  getSerializedKeyForKeypath obj (KeyPaths []) =
    Throw (Error (simple_keypath_message
      (concat_text (JSON_stringify (keyPath_value (KeyPaths []))))
      (concat_text (JSON_stringify (VArray []))))).
Proof. split; reflexivity. Qed.

(** X13.  Against a single locator, a record whose field holds a
    number, a Date or a string has the field's encoding as serialized
    key; a record whose field holds an array has none: the call throws
    the non-compound-keypath error. *)
Theorem simple_path_serialized_key (obj : value) (locator : string) :
  (isKeyComponent (get obj locator) = true ->
   exists s,
     serializeValueToOrderableString (get obj locator) = Ok s /\
     getSerializedKeyForKeypath obj (KeyPath locator) = Ok (Some s)) /\
  (forall elems, get obj locator = VArray elems ->
     getSerializedKeyForKeypath obj (KeyPath locator) =
       Throw (Error (simple_keypath_message
         (concat_text (JSON_stringify (keyPath_value (KeyPath locator))))
         (concat_text (JSON_stringify (VArray elems)))))).
Proof.
  split.
  - intros Hk. destruct (key_component_encodes _ Hk) as [s Hs].
    exists s. split; [exact Hs|].
    unfold getSerializedKeyForKeypath.
    rewrite resolved_key.
    + destruct (get obj locator); try discriminate Hk;
        injection Hs as <-; reflexivity.
    + intros l [<-|[]].
      destruct (get obj locator); try discriminate Hk; reflexivity.
  - intros elems Helems. unfold getSerializedKeyForKeypath.
    rewrite resolved_key.
    + rewrite Helems. reflexivity.
    + intros l [<-|[]]. rewrite Helems. reflexivity.
Qed.

(** X14.  Against a compound key path, a record whose fields all hold
    numbers, Dates or strings has as serialized key the encodings of
    the fields, in the order of the key path, joined by ["%&"]. *)
Theorem compound_path_serialized_key (obj : value) (locators : list string) :
  isCompoundKeyPath (KeyPaths locators) = true ->
  (forall l, In l locators -> isKeyComponent (get obj l) = true) ->
  exists strs,
    Forall2 (fun k e => serializeValueToOrderableString k = Ok e)
      (map (get obj) locators) strs /\
    getSerializedKeyForKeypath obj (KeyPaths locators) =
      Ok (Some (String.concat keypathJoinerString strs)).
Proof.
  intros Hc Hall.
  destruct (map_result_components (map (get obj) locators)) as [strs [Hm _]].
  { intros k Hk. apply in_map_iff in Hk. destruct Hk as [l [<- Hl]].
    now apply Hall. }
  exists strs. split.
  - now apply (map_result_Forall2
                 (fun k => serializeValueToOrderableString k)).
  - unfold getSerializedKeyForKeypath. rewrite resolved_key.
    + simpl isUndefined. cbv iota. unfold serializeKeyToString.
      rewrite Hc, Hm. reflexivity.
    + intros l Hl. specialize (Hall l Hl).
      destruct (get obj l); try discriminate Hall; reflexivity.
Qed.

End ResolvedKeys.

Lemma key_undefined_iff_witness :
  let record := VObject (Some "function Object() { [native code] }")
                  [("a", VNumber (of_Z 1)); ("b", VNull)] in
  getKeyForKeypath (host := reference_host) record (KeyPaths ["a"; "b"]) =
    VUndefined /\
  exists locator,
    In locator (arrayifyKeyPath (KeyPaths ["a"; "b"])) /\
    nullish (get (Host := reference_host) record locator) = true.
Proof.
  intros record.
  assert (H : getKeyForKeypath (host := reference_host) record
                (KeyPaths ["a"; "b"]) = VUndefined) by reflexivity.
  split; [exact H|].
  exact (proj1 (key_undefined_iff (host := reference_host) record
                  (KeyPaths ["a"; "b"])) H).
Defined.

Lemma compound_key_of_simple_keys_witness :
  let record := VObject (Some "function Object() { [native code] }")
                  [("a", VNumber (of_Z 1)); ("b", VString "x")] in
  getKeyForKeypath (host := reference_host) record (KeyPaths ["b"; "a"]) =
    VArray (map (fun l => getKeyForKeypath (host := reference_host) record
                            (KeyPath l)) ["b"; "a"]) /\
  Forall (fun l => nullish (getKeyForKeypath (host := reference_host) record
                              (KeyPath l)) = false) ["b"; "a"].
Proof.
  intros record.
  apply (compound_key_of_simple_keys (host := reference_host) record
           ["b"; "a"]).
  vm_compute. discriminate.
Defined.

Lemma simple_path_serialized_key_witness :
  let record := VObject (Some "function Object() { [native code] }")
                  [("a", VNumber (of_Z 1));
                   ("tags", VArray [VString "x"])] in
  (exists s,
     serializeValueToOrderableString (get (Host := reference_host) record "a")
       = Ok s /\
     getSerializedKeyForKeypath (host := reference_host) record (KeyPath "a")
       = Ok (Some s)) /\
  getSerializedKeyForKeypath (host := reference_host) record (KeyPath "tags")
    = Throw (Error (simple_keypath_message (quote "tags")
                      ("[" ++ quote "x" ++ "]"))).
Proof.
  intros record. split.
  - apply (proj1 (simple_path_serialized_key (host := reference_host)
                    record "a")).
    reflexivity.
  - apply (proj2 (simple_path_serialized_key (host := reference_host)
                    record "tags") [VString "x"]).
    reflexivity.
Defined.

Lemma compound_path_serialized_key_witness :
  let record := VObject (Some "function Object() { [native code] }")
                  [("a", VNumber (of_Z 1)); ("b", VString "x")] in
  exists strs,
    Forall2 (fun k e => serializeValueToOrderableString k = Ok e)
      (map (get (Host := reference_host) record) ["b"; "a"]) strs /\
    getSerializedKeyForKeypath (host := reference_host) record
      (KeyPaths ["b"; "a"]) =
      Ok (Some (String.concat keypathJoinerString strs)).
Proof.
  intros record.
  apply (compound_path_serialized_key (host := reference_host) record
           ["b"; "a"]).
  - reflexivity.
  - intros l [<-|[<-|[]]]; reflexivity.
Defined.

(** ** Lists of keys *)

Section KeyLists.
Context {host : Host}.

(** X15.  Forming the list of keys fails in one case only: a compound
    key path with an input that is not an array. *)
Theorem formListOfKeys_throws_iff (keyOrKeys : value) (keyPath : KeyPathType) :
  (exists e, formListOfKeys keyOrKeys keyPath = Throw e) <->
  isCompoundKeyPath keyPath = true /\ isArray keyOrKeys = false.
Proof.
  unfold formListOfKeys. split.
  - intros [e He]. destruct (isCompoundKeyPath keyPath); [|discriminate He].
    split; [reflexivity|].
    destruct keyOrKeys; try reflexivity.
    destruct (negb (isArray (nth 0 elems VUndefined))); discriminate He.
  - intros [-> Harr].
    destruct keyOrKeys; try discriminate Harr; eexists; reflexivity.
Qed.

(** X16.  Forming the list of keys is idempotent: the list it returns,
    given back as an array, is returned unchanged. *)
Theorem formListOfKeys_idempotent (keyOrKeys : value) (keyPath : KeyPathType)
    (keys : list value) :
  formListOfKeys keyOrKeys keyPath = Ok keys ->
  formListOfKeys (VArray keys) keyPath = Ok keys.
Proof.
  unfold formListOfKeys. intros H.
  destruct (isCompoundKeyPath keyPath); [|reflexivity].
  destruct keyOrKeys; try discriminate H.
  destruct (isArray (nth 0 elems VUndefined)) eqn:Hfirst; simpl in H;
    injection H as <-; simpl; [rewrite Hfirst|]; reflexivity.
Qed.

(** X17.  Against a compound key path the list of keys is never empty:
    the empty array is taken for one key without components, whose
    encoding is the empty string.  Against a simple key path the
    empty array is the empty list of keys. *)
Theorem empty_batch (keyPath : KeyPathType) :
  (isCompoundKeyPath keyPath = true ->
   (forall keyOrKeys keys,
      formListOfKeys keyOrKeys keyPath = Ok keys -> keys <> []) /\
   formListOfKeys (VArray []) keyPath = Ok [VArray []] /\
   formListOfSerializedKeys (VArray []) keyPath = Ok [""]) /\
  (isCompoundKeyPath keyPath = false ->
   formListOfKeys (VArray []) keyPath = Ok [] /\
   formListOfSerializedKeys (VArray []) keyPath = Ok []).
Proof.
  split; intros Hc.
  - split; [|split].
    + intros keyOrKeys keys H. unfold formListOfKeys in H. rewrite Hc in H.
      destruct keyOrKeys; try discriminate H.
      destruct (isArray (nth 0 elems VUndefined)) eqn:Hfirst; simpl in H;
        injection H as <-; [|discriminate].
      intros ->. discriminate Hfirst.
    + unfold formListOfKeys. rewrite Hc. reflexivity.
    + unfold formListOfSerializedKeys, formListOfKeys. rewrite Hc. simpl.
      unfold serializeKeyToString. rewrite Hc. reflexivity.
  - split.
    + unfold formListOfKeys. rewrite Hc. reflexivity.
    + unfold formListOfSerializedKeys, formListOfKeys. rewrite Hc.
      reflexivity.
Qed.

(** X18.  Against a simple key path a batch of numbers, Dates and
    strings is encoded key by key: as many strings as keys, in the
    order of the input, the i-th being the encoding of the i-th key;
    and a single such key, not in an array, gives the one-element
    list of its encoding. *)
Theorem simple_batch_in_order (keyPath : KeyPathType) (ks : list value) :
  isCompoundKeyPath keyPath = false ->
  (forall k, In k ks -> isKeyComponent k = true) ->
  (exists strs,
     Forall2 (fun k e => serializeValueToOrderableString k = Ok e) ks strs /\
     formListOfSerializedKeys (VArray ks) keyPath = Ok strs) /\
  (forall k e, In k ks -> serializeValueToOrderableString k = Ok e ->
     formListOfSerializedKeys k keyPath = Ok [e]).
Proof.
  intros Hc Hall.
  assert (Hone : forall k, isKeyComponent k = true ->
            serializeKeyToString k keyPath = serializeValueToOrderableString k).
  { intros k Hk. unfold serializeKeyToString. rewrite Hc.
    destruct k; try discriminate Hk; reflexivity. }
  split.
  - destruct (map_result_components ks Hall) as [strs [Hm _]].
    exists strs.
    apply (map_result_Forall2
             (fun k => serializeValueToOrderableString k)) in Hm.
    split; [exact Hm|].
    unfold formListOfSerializedKeys, formListOfKeys. rewrite Hc. simpl.
    apply map_result_Forall2.
    clear - Hm Hall Hone. induction Hm as [|k e ks strs Hk Hm IH]; constructor.
    + rewrite Hone; [exact Hk | apply Hall; now left].
    + apply IH. intros k' Hk'. apply Hall. now right.
  - intros k e Hin He. specialize (Hall k Hin).
    unfold formListOfSerializedKeys, formListOfKeys. rewrite Hc.
    destruct k; try discriminate Hall; simpl;
      rewrite (Hone _ Hall), He; reflexivity.
Qed.

(** X19.  Against a compound key path an array whose first element is
    not an array is one key: the batch is the encoding of that key
    alone, and it fails as encoding that key fails. *)
Theorem single_compound_key_batch (keyPath : KeyPathType) (ks : list value) :
  isCompoundKeyPath keyPath = true ->
  isArray (nth 0 ks VUndefined) = false ->
  formListOfSerializedKeys (VArray ks) keyPath =
    (s <- serializeKeyToString (VArray ks) keyPath ;; Ok [s]).
Proof.
  intros Hc Hfirst. unfold formListOfSerializedKeys, formListOfKeys.
  rewrite Hc, Hfirst. simpl.
  destruct (serializeKeyToString (VArray ks) keyPath); reflexivity.
Qed.

End KeyLists.

Lemma formListOfKeys_throws_iff_witness :
  (exists e,
     formListOfKeys (host := reference_host) (VNumber (of_Z 5))
       (KeyPaths ["a"; "b"]) = Throw e) /\
  isCompoundKeyPath (KeyPaths ["a"; "b"]) = true /\
  isArray (VNumber (of_Z 5)) = false.
Proof.
  assert (H : isCompoundKeyPath (KeyPaths ["a"; "b"]) = true /\
              isArray (VNumber (of_Z 5)) = false) by (split; reflexivity).
  split; [|exact H].
  exact (proj2 (formListOfKeys_throws_iff (host := reference_host)
                  (VNumber (of_Z 5)) (KeyPaths ["a"; "b"])) H).
Defined.

Lemma formListOfKeys_idempotent_witness :
  formListOfKeys (host := reference_host)
    (VArray [VArray [VNumber (of_Z 1); VNumber (of_Z 2)]])
    (KeyPaths ["a"; "b"]) =
  Ok [VArray [VNumber (of_Z 1); VNumber (of_Z 2)]].
Proof.
  apply (formListOfKeys_idempotent (host := reference_host)
           (VArray [VNumber (of_Z 1); VNumber (of_Z 2)])
           (KeyPaths ["a"; "b"])).
  reflexivity.
Defined.

Lemma empty_batch_witness :
  ((forall keyOrKeys keys,
      formListOfKeys (host := reference_host) keyOrKeys
        (KeyPaths ["a"; "b"]) = Ok keys -> keys <> []) /\
   formListOfKeys (host := reference_host) (VArray [])
     (KeyPaths ["a"; "b"]) = Ok [VArray []] /\
   formListOfSerializedKeys (host := reference_host) (VArray [])
     (KeyPaths ["a"; "b"]) = Ok [EmptyString]) /\
  (formListOfKeys (host := reference_host) (VArray []) (KeyPath "a") = Ok [] /\
   formListOfSerializedKeys (host := reference_host) (VArray [])
     (KeyPath "a") = Ok []).
Proof.
  split.
  - apply (proj1 (empty_batch (host := reference_host)
                    (KeyPaths ["a"; "b"]))).
    reflexivity.
  - apply (proj2 (empty_batch (host := reference_host) (KeyPath "a"))).
    reflexivity.
Defined.

Lemma simple_batch_in_order_witness :
  (exists strs,
     Forall2 (fun k e => serializeValueToOrderableString k = Ok e)
       [VNumber (of_Z 3); VNumber (of_Z 1); VNumber (of_Z 2)] strs /\
     formListOfSerializedKeys (host := reference_host)
       (VArray [VNumber (of_Z 3); VNumber (of_Z 1); VNumber (of_Z 2)])
       (KeyPath "field") = Ok strs) /\
  formListOfSerializedKeys (host := reference_host) (VNumber (of_Z 3))
    (KeyPath "field") = Ok ["A10243"].
Proof.
  destruct (simple_batch_in_order (host := reference_host) (KeyPath "field")
              [VNumber (of_Z 3); VNumber (of_Z 1); VNumber (of_Z 2)])
    as [Hbatch Hone].
  - reflexivity.
  - intros k [<-|[<-|[<-|[]]]]; reflexivity.
  - split; [exact Hbatch|].
    apply Hone; [now left | vm_compute; reflexivity].
Defined.

Lemma single_compound_key_batch_witness :
  formListOfSerializedKeys (host := reference_host)
    (VArray [VNumber (of_Z 1); VString "b"]) (KeyPaths ["a"; "b"]) =
  (s <- serializeKeyToString (host := reference_host)
          (VArray [VNumber (of_Z 1); VString "b"]) (KeyPaths ["a"; "b"]) ;;
   Ok [s]).
Proof.
  apply (single_compound_key_batch (host := reference_host)
           (KeyPaths ["a"; "b"]) [VNumber (of_Z 1); VString "b"]);
    reflexivity.
Defined.

(** ** Padding *)

Lemma zeros_prefix_of_zeroes (p : nat) :
  (p <= 16)%nat -> substring 0 p zeroes = zeros p.
Proof.
  intros Hp.
  do 17 (destruct p as [|p]; [reflexivity|]). lia.
Qed.

Lemma zeros_length (p : nat) : String.length (zeros p) = p.
Proof. induction p; simpl; [reflexivity | now rewrite IHp]. Qed.

(** X20.  [formatFixed] pads the text of the number on the left with
    zeros to exactly [digits] characters when from 1 to 15 zeros are
    needed, and returns the text unchanged otherwise: when it is
    already long enough, and also when 16 zeros or more would be
    needed. *)
Theorem formatFixed_width (n : number) (digits : Z) :
  let text := ToString n in
  let missing := digits - Z.of_nat (String.length text) in
  (0 < missing < 16 ->
   formatFixed n digits = zeros (Z.to_nat missing) ++ text /\
   Z.of_nat (String.length (formatFixed n digits)) = digits) /\
  (missing <= 0 \/ 16 <= missing -> formatFixed n digits = text).
Proof.
  intros text missing. unfold formatFixed. fold text. fold missing.
  change (Z.of_nat (String.length zeroes)) with 16. split.
  - intros [Hlo Hhi].
    replace (0 <? missing) with true by (symmetry; apply Z.ltb_lt; lia).
    replace (missing <? 16) with true by (symmetry; apply Z.ltb_lt; lia).
    simpl andb. cbv iota.
    rewrite zeros_prefix_of_zeroes by lia. split; [reflexivity|].
    rewrite append_length_sum, zeros_length. unfold missing. lia.
  - intros [Hle|Hge].
    + replace (0 <? missing) with false by (symmetry; apply Z.ltb_ge; lia).
      reflexivity.
    + replace (missing <? 16) with false by (symmetry; apply Z.ltb_ge; lia).
      rewrite andb_false_r. reflexivity.
Qed.

Lemma formatFixed_width_witness :
  (formatFixed (of_Z 700) 4 = zeros (Z.to_nat 1) ++ ToString (of_Z 700) /\
   Z.of_nat (String.length (formatFixed (of_Z 700) 4)) = 4) /\
  formatFixed (of_Z 5) 17 = ToString (of_Z 5).
Proof.
  split.
  - apply (proj1 (formatFixed_width (of_Z 700) 4)). vm_compute.
    split; reflexivity.
  - apply (proj2 (formatFixed_width (of_Z 5) 17)). right. vm_compute.
    discriminate.
Defined.

(** ** Integers as doubles *)

Lemma digits2_pos_bounds (p : positive) :
  2 ^ (Zpos (digits2_pos p) - 1) <= Zpos p < 2 ^ Zpos (digits2_pos p).
Proof.
  induction p as [p IH|p IH|]; cbn [digits2_pos].
  - rewrite Pos2Z.inj_succ.
    replace (Z.succ (Zpos (digits2_pos p)) - 1) with (Z.succ (Zpos (digits2_pos p) - 1)) by lia.
    rewrite !Z.pow_succ_r by lia. lia.
  - rewrite Pos2Z.inj_succ.
    replace (Z.succ (Zpos (digits2_pos p)) - 1) with (Z.succ (Zpos (digits2_pos p) - 1)) by lia.
    rewrite !Z.pow_succ_r by lia. lia.
  - simpl. lia.
Qed.

Lemma digits2_pos_shift (p k : positive) :
  digits2_pos (Pos.iter xO p k) = (digits2_pos p + k)%positive.
Proof.
  revert p. induction k as [|k IH] using Pos.peano_ind; intros p.
  - simpl. lia.
  - rewrite Pos.iter_succ. cbn [digits2_pos]. rewrite IH. lia.
Qed.

Lemma shift_value (p k : positive) :
  Zpos (Pos.iter xO p k) = Zpos p * 2 ^ Zpos k.
Proof.
  revert p. induction k as [|k IH] using Pos.peano_ind; intros p.
  - simpl. lia.
  - rewrite Pos.iter_succ. rewrite Pos2Z.inj_xO, IH, Pos2Z.inj_succ, Z.pow_succ_r by lia. lia.
Qed.

Lemma round_normal (s : bool) (m : positive) (e : Z) :
  Zpos (digits2_pos m) = 53 -> -1074 <= e <= 971 ->
  binary_round_aux prec emax s (Zpos m) e loc_Exact = S754_finite s m e.
Proof.
  intros Hd He. unfold binary_round_aux, shr_fexp.
  cbn [Zdigits2 shr_record_of_loc]. rewrite Hd.
  assert (Hf : fexp prec emax (53 + e) - e = 0).
  { unfold fexp, emin, prec, emax. lia. }
  rewrite Hf. cbn [shr shr_m loc_of_shr_record round_nearest_even Zdigits2].
  rewrite Hd, Hf. cbn [shr shr_m].
  replace (e <=? emax - prec) with true
    by (symmetry; apply Z.leb_le; unfold emax, prec; lia).
  reflexivity.
Qed.

Lemma binary_round_integer (s : bool) (p : positive) :
  Zpos (digits2_pos p) <= 53 ->
  exists m,
    binary_round prec emax s p 0 =
      S754_finite s m (Zpos (digits2_pos p) - 53) /\
    Zpos m = Zpos p * 2 ^ (53 - Zpos (digits2_pos p)).
Proof.
  intros Hd. unfold binary_round.
  assert (Hf : fexp prec emax (Zpos (digits2_pos p) + 0) =
               Zpos (digits2_pos p) - 53).
  { unfold fexp, emin, prec, emax. lia. }
  rewrite Hf. unfold shl_align.
  destruct (Zpos (digits2_pos p) - 53 - 0) as [|k|k] eqn:Hk; try lia.
  - exists p. split.
    + replace (Zpos (digits2_pos p) - 53) with 0 by lia.
      apply round_normal; lia.
    + replace (53 - Zpos (digits2_pos p)) with 0 by lia. simpl. lia.
  - exists (Pos.iter xO p k). split.
    + apply round_normal; [|lia].
      rewrite digits2_pos_shift. lia.
    + rewrite shift_value. f_equal. f_equal. lia.
Qed.

Lemma of_Z_zero : of_Z 0 = S754_zero false.
Proof. reflexivity. Qed.

Lemma of_Z_positive (z : Z) :
  0 < z < 2 ^ 53 ->
  exists m d,
    of_Z z = S754_finite false m (d - 53) /\
    Zpos m = z * 2 ^ (53 - d) /\ 1 <= d <= 53 /\ 2 ^ (d - 1) <= z < 2 ^ d.
Proof.
  intros Hz. destruct z as [|p|p]; try lia.
  pose proof (digits2_pos_bounds p) as Hb.
  assert (Hd : Zpos (digits2_pos p) <= 53).
  { destruct (Z_le_gt_dec (Zpos (digits2_pos p)) 53) as [H|H]; [exact H|].
    exfalso. assert (2 ^ 53 <= 2 ^ (Zpos (digits2_pos p) - 1))
      by (apply Z.pow_le_mono_r; lia). lia. }
  destruct (binary_round_integer false p Hd) as [m [Hm Hv]].
  exists m, (Zpos (digits2_pos p)). repeat split; try lia; exact Hm.
Qed.

Lemma of_Z_negative (z : Z) :
  - 2 ^ 53 < z < 0 -> exists m e, of_Z z = S754_finite true m e.
Proof.
  intros Hz. destruct z as [|p|p]; try lia.
  pose proof (digits2_pos_bounds p) as Hb.
  assert (Hd : Zpos (digits2_pos p) <= 53).
  { destruct (Z_le_gt_dec (Zpos (digits2_pos p)) 53) as [H|H]; [exact H|].
    exfalso. assert (2 ^ 53 <= 2 ^ (Zpos (digits2_pos p) - 1))
      by (apply Z.pow_le_mono_r; lia). lia. }
  destruct (binary_round_integer true p Hd) as [m [Hm Hv]].
  exists m, (Zpos (digits2_pos p) - 53). exact Hm.
Qed.

Lemma lt_of_Z (a b : Z) :
  0 <= a < 2 ^ 53 -> 0 <= b < 2 ^ 53 ->
  lt (of_Z a) (of_Z b) = (a <? b).
Proof.
  intros Ha Hb.
  destruct (Z.eq_dec a 0) as [->|Ha0]; destruct (Z.eq_dec b 0) as [->|Hb0].
  - reflexivity.
  - destruct (of_Z_positive b) as [m [d [-> _]]]; [lia|].
    rewrite of_Z_zero. simpl. symmetry. apply Z.ltb_lt. lia.
  - destruct (of_Z_positive a) as [m [d [-> _]]]; [lia|].
    rewrite of_Z_zero. simpl. symmetry. apply Z.ltb_ge. lia.
  - destruct (of_Z_positive a) as [ma [da [-> [Hma [Hda Hba]]]]]; [lia|].
    destruct (of_Z_positive b) as [mb [db [-> [Hmb [Hdb Hbb]]]]]; [lia|].
    unfold lt, SFltb, SFcompare.
    destruct (Z.compare_spec (da - 53) (db - 53)) as [He|He|He].
    + assert (da = db) by lia. subst db.
      change (Pos.compare_cont Eq ma mb) with (Pos.compare ma mb).
      rewrite Pos2Z.inj_compare, Hma, Hmb.
      assert (Hp : 0 < 2 ^ (53 - da)) by (apply Z.pow_pos_nonneg; lia).
      unfold Z.ltb.
      destruct (Z.compare_spec (a * 2 ^ (53 - da)) (b * 2 ^ (53 - da)));
        destruct (Z.compare_spec a b); try reflexivity; nia.
    + symmetry. apply Z.ltb_lt.
      assert (2 ^ da <= 2 ^ (db - 1)) by (apply Z.pow_le_mono_r; lia). lia.
    + symmetry. apply Z.ltb_ge.
      assert (2 ^ db <= 2 ^ (da - 1)) by (apply Z.pow_le_mono_r; lia). lia.
Qed.

Lemma integer_value_of_Z (z : Z) :
  0 <= z < 2 ^ 53 -> integer_value (of_Z z) = z.
Proof.
  intros Hz. destruct (Z.eq_dec z 0) as [->|Hz0]; [reflexivity|].
  destruct (of_Z_positive z) as [m [d [-> [Hm [Hd Hb]]]]]; [lia|].
  unfold integer_value.
  destruct (0 <=? d - 53) eqn:He.
  - apply Z.leb_le in He. assert (d = 53) by lia. subst d.
    rewrite Hm. simpl. lia.
  - apply Z.leb_gt in He. rewrite Hm.
    replace (- (d - 53)) with (53 - d) by lia.
    apply Z.div_mul. apply Z.pow_nonzero; lia.
Qed.

Lemma valid_array_length_of_Z (z : Z) :
  0 <= z <= 2 ^ 32 - 1 -> valid_array_length (of_Z z) = true.
Proof.
  intros Hz. destruct (Z.eq_dec z 0) as [->|Hz0]; [reflexivity|].
  assert (Hz53 : 0 <= z < 2 ^ 53) by lia.
  pose proof (integer_value_of_Z z Hz53) as Hiv.
  destruct (of_Z_positive z) as [m [d [Hof [Hm [Hd Hb]]]]]; [lia|].
  rewrite Hof in *. unfold valid_array_length. rewrite Hiv.
  apply andb_true_intro. split; [|apply Z.leb_le; lia].
  apply orb_true_iff.
  destruct (0 <=? d - 53) eqn:He; [now left|right].
  apply Z.leb_gt in He. apply Z.eqb_eq. rewrite Hm.
  replace (- (d - 53)) with (53 - d) by lia.
  apply Z.mod_mul. apply Z.pow_nonzero; lia.
Qed.

(** ** Trimming an array *)

Lemma firstn_snoc (l : list value) (j : nat) :
  (j < List.length l)%nat ->
  firstn (S j) l = (firstn j l ++ [nth j l VUndefined])%list.
Proof.
  revert j. induction l as [|x l IH]; intros j Hj; simpl in Hj; [lia|].
  destruct j as [|j]; [reflexivity|].
  simpl. f_equal. apply IH. lia.
Qed.

Lemma set_nth_filled (done : list value) (v : value) (n : nat) :
  set_nth (List.length done) v (done ++ repeat VUndefined (S n))%list =
    ((done ++ [v]) ++ repeat VUndefined n)%list.
Proof.
  induction done as [|x done IH]; simpl; [reflexivity | f_equal; exact IH].
Qed.

Lemma trim_loop_fills (array : list value) (k : nat) (rounds : nat) :
  (k <= List.length array)%nat -> Z.of_nat k < 2 ^ 53 ->
  forall j : nat, (j <= k)%nat -> (k - j <= rounds)%nat ->
  trim_loop rounds array (of_Z (Z.of_nat k)) (Z.of_nat j)
    (firstn j array ++ repeat VUndefined (k - j))%list = firstn k array.
Proof.
  intros Hk Hk53. induction rounds as [|rounds IH]; intros j Hj Hr.
  - assert (j = k) by lia. subst j. rewrite Nat.sub_diag. simpl.
    apply app_nil_r.
  - cbn [trim_loop]. rewrite lt_of_Z by lia.
    destruct (Z.of_nat j <? Z.of_nat k) eqn:Hlt.
    + apply Z.ltb_lt in Hlt.
      replace (k - j)%nat with (S (k - S j)) by lia.
      unfold set_index, index.
      replace (Z.of_nat j <? 0) with false by (symmetry; apply Z.ltb_ge; lia).
      rewrite Nat2Z.id.
      assert (Hlen : List.length (firstn j array) = j)
        by (apply firstn_length_le; lia).
      pose proof (set_nth_filled (firstn j array) (nth j array VUndefined)
                    (k - S j)) as Hset.
      rewrite Hlen in Hset. rewrite Hset.
      rewrite <- firstn_snoc by lia.
      replace (Z.of_nat j + 1) with (Z.of_nat (S j)) by lia.
      apply IH; lia.
    + apply Z.ltb_ge in Hlt. assert (j = k) by lia. subst j.
      rewrite Nat.sub_diag. simpl. apply app_nil_r.
Qed.

Lemma of_Z_nonnegative_shape (z : Z) :
  0 <= z < 2 ^ 53 ->
  of_Z z = S754_zero false \/ exists m e, of_Z z = S754_finite false m e.
Proof.
  intros Hz. destruct (Z.eq_dec z 0) as [->|Hz0]; [now left|right].
  destruct (of_Z_positive z) as [m [d [-> _]]]; [lia|]. eauto.
Qed.

Lemma trimArray_of_integer (array : list value) (k : Z) :
  Z.of_nat (List.length array) <= MAX_COUNT -> - 2 ^ 53 < k < 2 ^ 53 ->
  trimArray array (of_Z k) =
    Returns (if (0 <=? k) && (k <=? Z.of_nat (List.length array))
             then firstn (Z.to_nat k) array else array).
Proof.
  intros Hlen Hk. unfold MAX_COUNT in Hlen. unfold trimArray.
  destruct (Z_lt_le_dec k 0) as [Hneg|Hpos].
  - destruct (of_Z_negative k) as [m [e ->]]; [lia|].
    replace (0 <=? k) with false by (symmetry; apply Z.leb_gt; lia).
    reflexivity.
  - replace (0 <=? k) with true by (symmetry; apply Z.leb_le; lia).
    replace (lt (of_Z k) (of_Z 0)) with false
      by (rewrite lt_of_Z by lia; symmetry; apply Z.ltb_ge; lia).
    rewrite lt_of_Z by lia. simpl orb. simpl andb.
    destruct (Z.of_nat (List.length array) <? k) eqn:Hlt.
    + apply Z.ltb_lt in Hlt.
      replace (k <=? Z.of_nat (List.length array)) with false
        by (symmetry; apply Z.leb_gt; lia).
      reflexivity.
    + apply Z.ltb_ge in Hlt.
      replace (k <=? Z.of_nat (List.length array)) with true
        by (symmetry; apply Z.leb_le; lia).
      rewrite valid_array_length_of_Z by lia.
      rewrite integer_value_of_Z by lia. f_equal.
      pose proof (trim_loop_fills array (Z.to_nat k) (S (List.length array))
                    ltac:(lia) ltac:(lia) 0%nat ltac:(lia) ltac:(lia)) as H.
      rewrite Z2Nat.id in H by lia. simpl in H. rewrite Nat.sub_0_r in H.
      exact H.
Qed.

Lemma pow2_lt_inv (a b : Z) : 0 <= b -> 2 ^ a < 2 ^ b -> a < b.
Proof.
  intros Hb H. destruct (Z_lt_le_dec a b) as [Hlt|Hge]; [exact Hlt|].
  exfalso. assert (2 ^ b <= 2 ^ a) by (apply Z.pow_le_mono_r; lia). lia.
Qed.

Lemma valid_integer_is_of_Z (m : positive) (e : Z) :
  valid_binary prec emax (S754_finite false m e) = true ->
  valid_array_length (S754_finite false m e) = true ->
  let k := integer_value (S754_finite false m e) in
  S754_finite false m e = of_Z k /\ 0 < k <= 2 ^ 32 - 1.
Proof.
  intros Hvalid Hlen k.
  unfold valid_binary, bounded, canonical_mantissa in Hvalid.
  apply andb_prop in Hvalid. destruct Hvalid as [Hcan _].
  apply Z.eqb_eq in Hcan. unfold fexp, emin, prec, emax in Hcan.
  unfold valid_array_length in Hlen. fold k in Hlen.
  apply andb_prop in Hlen. destruct Hlen as [Hint Hmax].
  apply Z.leb_le in Hmax.
  pose proof (digits2_pos_bounds m) as Hm.
  set (d := Zpos (digits2_pos m)) in *.
  assert (Hd1 : 1 <= d) by (unfold d; lia).
  unfold k, integer_value in *.
  destruct (0 <=? e) eqn:He.
  - apply Z.leb_le in He. exfalso.
    assert (d = 53) by lia.
    assert (2 ^ 52 <= Zpos m) by (replace 52 with (d - 1) by lia; lia).
    assert (0 < 2 ^ e) by (apply Z.pow_pos_nonneg; lia).
    assert (2 ^ 52 <= Zpos m * 2 ^ e) by nia.
    assert (2 ^ 32 < 2 ^ 52) by (apply Z.pow_lt_mono_r; lia). lia.
  - apply Z.leb_gt in He. simpl in Hint. apply Z.eqb_eq in Hint.
    set (q := Zpos m / 2 ^ (- e)) in *.
    assert (Hp : 0 < 2 ^ (- e)) by (apply Z.pow_pos_nonneg; lia).
    assert (Hmq : Zpos m = q * 2 ^ (- e)).
    { pose proof (Z.div_mod (Zpos m) (2 ^ (- e)) ltac:(lia)) as H.
      fold q in H. lia. }
    assert (Hq : 0 < q) by nia.
    assert (Hd53 : d <= 53) by lia.
    assert (Hm53 : Zpos m < 2 ^ 53).
    { assert (2 ^ d <= 2 ^ 53) by (apply Z.pow_le_mono_r; lia). lia. }
    assert (He53 : - e < 53).
    { apply pow2_lt_inv; [lia|]. nia. }
    assert (Hd : d = 53) by lia.
    assert (Hq53 : q < 2 ^ 53) by nia.
    destruct (of_Z_positive q) as [m' [d' [Hof [Hm' [Hd' Hb']]]]]; [lia|].
    assert (Hde : d' - e = 53).
    { assert (Hlo : 52 < d' - e).
      { apply pow2_lt_inv; [lia|].
        replace (d' - e) with (d' + - e) by lia.
        rewrite Z.pow_add_r by lia.
        replace 52 with (d - 1) by lia. nia. }
      assert (Hhi : d' - 1 - e < 53).
      { apply pow2_lt_inv; [lia|].
        replace (d' - 1 - e) with (d' - 1 + - e) by lia.
        rewrite Z.pow_add_r by lia. nia. }
      lia. }
    split; [|lia]. rewrite Hof.
    replace (d' - 53) with e by lia. f_equal.
    apply Pos2Z.inj. rewrite Hm', Hmq. f_equal. f_equal. lia.
Qed.

Lemma lt_length_zero (n : nat) (s : bool) :
  Z.of_nat n < 2 ^ 53 -> lt (of_Z (Z.of_nat n)) (S754_zero s) = false.
Proof.
  intros Hn.
  destruct (of_Z_nonnegative_shape (Z.of_nat n)) as [->|[m [e ->]]];
    [lia | reflexivity | reflexivity].
Qed.

Lemma lt_length_infinity (n : nat) :
  Z.of_nat n < 2 ^ 53 -> lt (of_Z (Z.of_nat n)) (S754_infinity false) = true.
Proof.
  intros Hn.
  destruct (of_Z_nonnegative_shape (Z.of_nat n)) as [->|[m [e ->]]];
    [lia | reflexivity | reflexivity].
Qed.

(** X21.  For an integer trim length from 0 to the length of the
    array, [trimArray] returns the first [trimLength] elements of the
    array, in order. *)
Theorem trimArray_in_range (array : list value) (k : Z) :
  Z.of_nat (List.length array) <= MAX_COUNT ->
  0 <= k <= Z.of_nat (List.length array) ->
  trimArray array (of_Z k) = Returns (firstn (Z.to_nat k) array) /\
  Z.of_nat (List.length (firstn (Z.to_nat k) array)) = k.
Proof.
  intros Hlen Hk. unfold MAX_COUNT in Hlen.
  rewrite trimArray_of_integer by (unfold MAX_COUNT; lia).
  replace ((0 <=? k) && (k <=? Z.of_nat (List.length array))) with true
    by (symmetry; apply andb_true_intro; split; apply Z.leb_le; lia).
  split; [reflexivity|]. rewrite firstn_length_le by lia. lia.
Qed.

(** X22.  A trim length outside the array leaves the array whole: a
    negative one does not empty it, and neither a longer one nor an
    infinite one extends it. *)
Theorem trimArray_out_of_range (array : list value) :
  Z.of_nat (List.length array) <= MAX_COUNT ->
  (forall k, - 2 ^ 53 < k < 0 \/ Z.of_nat (List.length array) < k < 2 ^ 53 ->
     trimArray array (of_Z k) = Returns array) /\
  (forall s, trimArray array (S754_infinity s) = Returns array).
Proof.
  intros Hlen. split.
  - intros k Hk. rewrite trimArray_of_integer by lia.
    replace ((0 <=? k) && (k <=? Z.of_nat (List.length array))) with false;
      [reflexivity|].
    symmetry. apply andb_false_iff.
    destruct Hk as [Hk|Hk]; [left; apply Z.leb_gt | right; apply Z.leb_gt];
      lia.
  - intros s. unfold trimArray. destruct s; [reflexivity|].
    rewrite lt_length_infinity by (unfold MAX_COUNT in Hlen; lia).
    now rewrite orb_true_r.
Qed.

(** X23.  Whatever number the trim length is, when [trimArray]
    returns, it returns a prefix of the array: it never reorders,
    invents or skips elements. *)
Theorem trimArray_returns_prefix (array : list value) (trimLength : number)
    (ret : list value) :
  Z.of_nat (List.length array) <= MAX_COUNT ->
  valid_binary prec emax trimLength = true ->
  trimArray array trimLength = Returns ret ->
  exists rest, array = (ret ++ rest)%list.
Proof.
  intros Hlen Hvalid Hret.
  assert (Hlen53 : Z.of_nat (List.length array) < 2 ^ 53)
    by (unfold MAX_COUNT in Hlen; lia).
  assert (Hwhole : exists rest, array = (array ++ rest)%list)
    by (exists []; symmetry; apply app_nil_r).
  destruct trimLength as [s|s| |s m e].
  - unfold trimArray in Hret. rewrite lt_length_zero in Hret by exact Hlen53.
    change (lt (S754_zero s) (of_Z 0)) with false in Hret.
    cbn [orb valid_array_length integer_value Z.to_nat repeat trim_loop] in Hret.
    change (lt (of_Z 0) (S754_zero s)) with false in Hret.
    injection Hret as <-. exists array. reflexivity.
  - unfold trimArray in Hret. destruct s.
    + change (lt (S754_infinity true) (of_Z 0)) with true in Hret.
      injection Hret as <-. exact Hwhole.
    + rewrite lt_length_infinity in Hret by exact Hlen53.
      rewrite orb_true_r in Hret. injection Hret as <-. exact Hwhole.
  - unfold trimArray in Hret.
    change (lt S754_nan (of_Z 0)) with false in Hret.
    replace (lt (of_Z (Z.of_nat (List.length array))) S754_nan) with false
      in Hret by (unfold lt, SFltb, SFcompare; now destruct (of_Z _)).
    discriminate Hret.
  - destruct s.
    + unfold trimArray in Hret.
      change (lt (S754_finite true m e) (of_Z 0)) with true in Hret.
      injection Hret as <-. exact Hwhole.
    + destruct (valid_array_length (S754_finite false m e)) eqn:Hint.
      * destruct (valid_integer_is_of_Z m e Hvalid Hint) as [Heq Hk].
        rewrite Heq in Hret. unfold MAX_COUNT in Hlen.
        rewrite trimArray_of_integer in Hret
          by (unfold MAX_COUNT; lia).
        injection Hret as <-.
        destruct ((0 <=? _) && (_ <=? _)); [|exact Hwhole].
        eexists. symmetry. apply firstn_skipn.
      * unfold trimArray in Hret. rewrite Hint in Hret.
        destruct (_ || _); [|discriminate Hret].
        injection Hret as <-. exact Hwhole.
Qed.

(** X24.  Trimming is idempotent: trimming the result again to the
    same length changes nothing. *)
Theorem trimArray_idempotent (array : list value) (k : Z) (ret : list value) :
  Z.of_nat (List.length array) <= MAX_COUNT -> - 2 ^ 53 < k < 2 ^ 53 ->
  trimArray array (of_Z k) = Returns ret ->
  trimArray ret (of_Z k) = Returns ret.
Proof.
  intros Hlen Hk Hret.
  rewrite trimArray_of_integer in Hret by assumption.
  injection Hret as <-.
  destruct ((0 <=? k) && (k <=? Z.of_nat (List.length array))) eqn:Hin.
  - apply andb_prop in Hin. destruct Hin as [H0 Hle].
    apply Z.leb_le in H0. apply Z.leb_le in Hle.
    assert (Hl : List.length (firstn (Z.to_nat k) array) = Z.to_nat k)
      by (apply firstn_length_le; lia).
    rewrite trimArray_of_integer by (rewrite ?Hl; lia).
    rewrite Hl.
    replace ((0 <=? k) && (k <=? Z.of_nat (Z.to_nat k))) with true
      by (symmetry; apply andb_true_intro; split; apply Z.leb_le; lia).
    rewrite <- Hl at 1. now rewrite firstn_all.
  - rewrite trimArray_of_integer by assumption. now rewrite Hin.
Qed.

(** X25.  [trimArray] throws a RangeError, from [new Array], when the
    trim length is [NaN], and when it is a positive fraction that is
    not above the length of the array. *)
Theorem trimArray_range_error (array : list value) :
  trimArray array S754_nan = ThrowsRangeError /\
  (forall m e,
     e < 0 -> Zpos m mod 2 ^ (- e) <> 0 ->
     lt (of_Z (Z.of_nat (List.length array))) (S754_finite false m e) = false ->
     trimArray array (S754_finite false m e) = ThrowsRangeError).
Proof.
  split.
  - unfold trimArray. change (lt S754_nan (of_Z 0)) with false.
    replace (lt (of_Z (Z.of_nat (List.length array))) S754_nan) with false
      by (unfold lt, SFltb, SFcompare; now destruct (of_Z _)).
    reflexivity.
  - intros m e He Hfrac Hle. unfold trimArray. rewrite Hle.
    change (lt (S754_finite false m e) (of_Z 0)) with false.
    unfold valid_array_length.
    replace (0 <=? e) with false by (symmetry; apply Z.leb_gt; lia).
    replace (Zpos m mod 2 ^ (- e) =? 0) with false
      by (symmetry; apply Z.eqb_neq; exact Hfrac).
    reflexivity.
Qed.

Lemma trimArray_in_range_witness :
  trimArray [VNumber (of_Z 1); VString "b"; VNull] (of_Z 2) =
    Returns (firstn (Z.to_nat 2) [VNumber (of_Z 1); VString "b"; VNull]) /\
  Z.of_nat (List.length
              (firstn (Z.to_nat 2) [VNumber (of_Z 1); VString "b"; VNull])) = 2.
Proof.
  apply (trimArray_in_range [VNumber (of_Z 1); VString "b"; VNull] 2).
  - vm_compute. discriminate.
  - split; vm_compute; discriminate.
Defined.

Lemma trimArray_out_of_range_witness :
  trimArray [VNumber (of_Z 1); VString "b"] (of_Z (-1)) =
    Returns [VNumber (of_Z 1); VString "b"] /\
  trimArray [VNumber (of_Z 1); VString "b"] (of_Z 3) =
    Returns [VNumber (of_Z 1); VString "b"] /\
  trimArray [VNumber (of_Z 1); VString "b"] (S754_infinity false) =
    Returns [VNumber (of_Z 1); VString "b"].
Proof.
  destruct (trimArray_out_of_range [VNumber (of_Z 1); VString "b"])
    as [Hint Hinf].
  - vm_compute. discriminate.
  - split; [|split].
    + apply Hint. left. lia.
    + apply Hint. right. change (Z.of_nat (List.length _)) with 2. lia.
    + apply Hinf.
Defined.

Lemma trimArray_returns_prefix_witness :
  exists rest,
    [VNumber (of_Z 1); VString "b"; VNull] =
      ([VNumber (of_Z 1); VString "b"] ++ rest)%list.
Proof.
  apply (trimArray_returns_prefix [VNumber (of_Z 1); VString "b"; VNull]
           (of_Z 2) [VNumber (of_Z 1); VString "b"]).
  - vm_compute. discriminate.
  - vm_compute. reflexivity.
  - vm_compute. reflexivity.
Defined.

Lemma trimArray_idempotent_witness :
  trimArray [VNumber (of_Z 1); VString "b"] (of_Z 2) =
    Returns [VNumber (of_Z 1); VString "b"].
Proof.
  apply (trimArray_idempotent [VNumber (of_Z 1); VString "b"; VNull] 2
           [VNumber (of_Z 1); VString "b"]).
  - vm_compute. discriminate.
  - lia.
  - vm_compute. reflexivity.
Defined.

Lemma trimArray_range_error_witness :
  trimArray [VNumber (of_Z 1); VString "b"]
    (S754_finite false 6755399441055744 (-52)) = ThrowsRangeError.
Proof.
  apply (proj2 (trimArray_range_error [VNumber (of_Z 1); VString "b"])
           6755399441055744%positive (-52)).
  - lia.
  - vm_compute. discriminate.
  - vm_compute. reflexivity.
Defined.
